(** * Meeting-notes converter: markdown parser and request builder

    A shallow embedding of [src/meeting_notes_converter.py].

    - Python [str] values are sequences of Unicode code points ([pystr]).
    - Python [int] values are [Z].
    - The two regular expressions of [parse_markdown] and [MENTION_PATTERN]
      are run by a small backtracking matcher ([re_match]) over the
      fragment they use: a sequence of greedy, bounded repetitions of a
      character class, some of them capturing.
    - Exceptions are values of [exn]; fallible code returns [result].
    - The remote Docs service is an arbitrary state machine; the converter
      threads its state and the trace of the calls it makes.
    - The tables of the Unicode database that are not ASCII ([\w] and
      [str.lower] beyond ASCII) are parameters of the parser. *)

From Stdlib Require Import List ZArith NArith Arith Bool String Ascii Lia.
From Stdlib Require Import DecimalString Floats.
Import ListNotations.

Set Implicit Arguments.

(** ** Strings *)

Definition char := N.
Definition pystr := list char.

(** An ASCII literal as a Python string. *)
Definition py (s : string) : pystr := map N_of_ascii (list_ascii_of_string s).

Definition len (s : pystr) : Z := Z.of_nat (List.length s).

Fixpoint str_eqb (a b : pystr) : bool :=
  match a, b with
  | [], [] => true
  | x :: a', y :: b' => N.eqb x y && str_eqb a' b'
  | _, _ => false
  end.

Fixpoint startswith (s prefix : pystr) : bool :=
  match prefix, s with
  | [], _ => true
  | p :: prefix', c :: s' => N.eqb c p && startswith s' prefix'
  | _ :: _, [] => false
  end.

Fixpoint drop_while (f : char -> bool) (s : pystr) : pystr :=
  match s with
  | c :: s' => if f c then drop_while f s' else s
  | [] => []
  end.

(** [str.isspace] of one character; the regular expression class [\s] is the
    same set ([Py_UNICODE_ISSPACE]). *)
Definition is_space (c : char) : bool :=
  ((0x09 <=? c) && (c <=? 0x0D) || (0x1C <=? c) && (c <=? 0x20)
   || (c =? 0x85) || (c =? 0xA0) || (c =? 0x1680)
   || (0x2000 <=? c) && (c <=? 0x200A)
   || (c =? 0x2028) || (c =? 0x2029) || (c =? 0x202F) || (c =? 0x205F)
   || (c =? 0x3000))%N.

(** The line boundaries of [str.splitlines]. *)
Definition is_linebreak (c : char) : bool :=
  ((0x0A <=? c) && (c <=? 0x0D) || (0x1C <=? c) && (c <=? 0x1E)
   || (c =? 0x85) || (c =? 0x2028) || (c =? 0x2029))%N.

Definition lstrip (s : pystr) : pystr := drop_while is_space s.
Definition rstrip (s : pystr) : pystr := rev (drop_while is_space (rev s)).
Definition strip (s : pystr) : pystr := rstrip (lstrip s).

(** [str.splitlines()]: [cur] is the line being read.  A carriage return
    followed by a line feed is one boundary, and no empty line is produced
    after a final boundary. *)
Fixpoint splitlines_from (cur : pystr) (s : pystr) : list pystr :=
  match s with
  | [] => match cur with [] => [] | _ => [cur] end
  | c :: rest =>
      if is_linebreak c then
        if (c =? 0x0D)%N then
          match rest with
          | d :: rest' =>
              if (d =? 0x0A)%N then cur :: splitlines_from [] rest'
              else cur :: splitlines_from [] rest
          | [] => cur :: splitlines_from [] rest
          end
        else cur :: splitlines_from [] rest
      else splitlines_from (cur ++ [c]) rest
  end.

Definition splitlines (s : pystr) : list pystr := splitlines_from [] s.

Definition is_ascii (c : char) : bool := (c <? 128)%N.

Definition ascii_lower (c : char) : char :=
  if ((0x41 <=? c) && (c <=? 0x5A))%N then (c + 32)%N else c.

Definition ascii_alnum (c : char) : bool :=
  ((0x30 <=? c) && (c <=? 0x39) || (0x41 <=? c) && (c <=? 0x5A)
   || (0x61 <=? c) && (c <=? 0x7A))%N.

(** [str(n)] for an [int]. *)
Definition str_of_int (n : Z) : pystr := py (NilZero.string_of_int (Z.to_int n)).

(** ** Exceptions *)

(** [googleapiclient.errors.HttpError]: the response status, and the text
    that [str(exc)] gives. *)
Record HttpError := { http_status : Z; http_str : pystr }.

(** An exception of a class that is not [HttpError] nor one of its
    subclasses ([TimeoutError], [httplib2.ServerNotFoundError], ...): its
    class and the text of [str(exc)]. *)
Record OtherException := { exc_class : pystr; exc_str : pystr }.

Inductive exn :=
| ValueError (msg : pystr)
| KeyError (key : pystr)
| RuntimeError (msg : pystr) (cause : HttpError)
| Uncaught (exc : OtherException).

Inductive result (A : Type) :=
| Ok (a : A)
| Raise (e : exn).
Arguments Ok {A} a.
Arguments Raise {A} e.

Definition bind {A B} (r : result A) (k : A -> result B) : result B :=
  match r with
  | Ok a => k a
  | Raise e => Raise e
  end.

Notation "x <- r ;; k" := (bind r (fun x => k))
  (at level 100, r at next level, right associativity).
Notation "' p <- r ;; k" := (bind r (fun x => let p := x in k))
  (at level 100, p pattern, r at next level, right associativity).

(** ** Regular expressions *)

(** One item of a pattern: a character class repeated between [p_min] and
    [p_max] times (no [p_max]: unbounded), greedily; [p_group] says whether
    the item is a capturing group. *)
Record piece := {
  p_class : char -> bool;
  p_min : nat;
  p_max : option nat;
  p_group : bool
}.

Definition pattern := list piece.

Fixpoint run_length (f : char -> bool) (s : pystr) : nat :=
  match s with
  | c :: s' => if f c then S (run_length f s') else 0
  | [] => 0
  end.

(** Tries [f] at [lo + n], [lo + n - 1], ..., [lo]: the first success. *)
Fixpoint first_down {A} (f : nat -> option A) (lo n : nat) : option A :=
  match f (lo + n) with
  | Some a => Some a
  | None => match n with
            | 0 => None
            | S n' => first_down f lo n'
            end
  end.

(** [pattern.match(s)]: the number of characters matched and [groups()].
    Each item first takes as many characters as it may and gives them back
    one at a time while the rest of the pattern fails. *)
Fixpoint re_match (pat : pattern) (s : pystr) : option (nat * list pystr) :=
  match pat with
  | [] => Some (0, [])
  | p :: pat' =>
      let avail := run_length (p_class p) s in
      let hi := match p_max p with Some m => Nat.min m avail | None => avail end in
      if hi <? p_min p then None
      else
        first_down
          (fun k =>
             match re_match pat' (skipn k s) with
             | Some (n, groups) =>
                 Some (k + n, if p_group p then firstn k s :: groups else groups)
             | None => None
             end)
          (p_min p) (hi - p_min p)
  end.

(** [pattern.finditer(s)] as the list of [(match.start(), match.end())]:
    [skip] characters of the last match are still to be passed, [pos] is the
    offset of [s] in the whole string. *)
Fixpoint finditer_from (pat : pattern) (skip pos : nat) (s : pystr)
  : list (nat * nat) :=
  match skip with
  | S k =>
      match s with
      | [] => []
      | _ :: rest => finditer_from pat k (S pos) rest
      end
  | 0 =>
      match re_match pat s with
      | Some (n, _) =>
          (pos, pos + n) ::
          match s with
          | [] => []
          | _ :: rest => finditer_from pat (Nat.pred n) (S pos) rest
          end
      | None =>
          match s with
          | [] => []
          | _ :: rest => finditer_from pat 0 (S pos) rest
          end
      end
  end.

Definition finditer (pat : pattern) (s : pystr) : list (nat * nat) :=
  finditer_from pat 0 0 s.

Definition one (f : char -> bool) (group : bool) : piece :=
  {| p_class := f; p_min := 1; p_max := Some 1; p_group := group |}.
Definition plus (f : char -> bool) (group : bool) : piece :=
  {| p_class := f; p_min := 1; p_max := None; p_group := group |}.
Definition star (f : char -> bool) (group : bool) : piece :=
  {| p_class := f; p_min := 0; p_max := None; p_group := group |}.
Definition between (f : char -> bool) (lo hi : nat) (group : bool) : piece :=
  {| p_class := f; p_min := lo; p_max := Some hi; p_group := group |}.

Definition is_char (a : ascii) (c : char) : bool := N.eqb c (N_of_ascii a).
(** [.] without DOTALL: anything but a line feed. *)
Definition dot (c : char) : bool := negb (N.eqb c 0x0A).
(** The class of a dash and an asterisk. *)
Definition dash_or_star (c : char) : bool := is_char "-" c || is_char "*" c.

(** The heading pattern of [parse_markdown]: at the start of the line, one
    to six [#] (group 1), one or more [\s], then any characters (group 2). *)
Definition HEADING_PATTERN : pattern :=
  [between (is_char "#") 1 6 true; plus is_space false; star dot true].

(** The bullet pattern of [parse_markdown]: at the start of the line, any
    number of [\s] (group 1), a dash or an asterisk (group 2), one or more
    [\s], then any characters (group 3). *)
Definition BULLET_PATTERN : pattern :=
  [star is_space true; one dash_or_star true; plus is_space false; star dot true].

(** ** Paragraphs *)

Record ParagraphSpec := {
  text : pystr;
  named_style : pystr;
  bullet : bool;
  checkbox : bool;
  indent_level : Z;
  is_footer : bool;
  mention_spans : list (Z * Z)
}.

Definition NORMAL_TEXT : pystr := py "NORMAL_TEXT".

(** [a, b = groups] and [a, b, c = groups]: unpacking raises [ValueError]
    unless the tuple has that many items. *)
Definition unpack2 (groups : list pystr) : result (pystr * pystr) :=
  match groups with
  | [a; b] => Ok (a, b)
  | _ :: _ :: _ :: _ => Raise (ValueError (py "too many values to unpack (expected 2)"))
  | _ => Raise (ValueError (py "not enough values to unpack"))
  end.

Definition unpack3 (groups : list pystr) : result (pystr * pystr * pystr) :=
  match groups with
  | [a; b; c] => Ok (a, b, c)
  | _ :: _ :: _ :: _ :: _ => Raise (ValueError (py "too many values to unpack (expected 3)"))
  | _ => Raise (ValueError (py "not enough values to unpack"))
  end.

Section Parser.

(** The Unicode database of the interpreter, beyond ASCII: [uni_alnum] is
    [str.isalnum] of a character that is not ASCII, [uni_lower] is
    [str.lower] of a string that is not all ASCII. *)
Variable uni_alnum : char -> bool.
Variable uni_lower : pystr -> pystr.

(** The class [\w]: alphanumeric or the underscore. *)
Definition is_word (c : char) : bool :=
  if is_ascii c then ascii_alnum c || is_char "_" c else uni_alnum c.

(** [str.lower()]: ASCII strings are lowered letter by letter. *)
Definition lower (s : pystr) : pystr :=
  if forallb is_ascii s then map ascii_lower s else uni_lower s.

(** [MENTION_PATTERN]: an at sign, then one or more [\w]. *)
Definition MENTION_PATTERN : pattern :=
  [one (is_char "@") false; plus is_word false].

Definition _extract_mentions (text : pystr) : list (Z * Z) :=
  map (fun m => (Z.of_nat (fst m), Z.of_nat (snd m))) (finditer MENTION_PATTERN text).

(** The body of the loop of [parse_markdown] for one line: the paragraph
    appended, if any. *)
Definition parse_line (raw_line : pystr) : result (option ParagraphSpec) :=
  let line := rstrip raw_line in
  match line with
  | [] => Ok None
  | _ :: _ =>
      if str_eqb (strip line) (py "---") then Ok None
      else
        match re_match HEADING_PATTERN line with
        | Some (_, groups) =>
            '(hashes, title) <- unpack2 groups ;;
            let level := Z.min (len hashes) 3 in
            Ok (Some {| text := strip title;
                        named_style := py "HEADING_" ++ str_of_int level;
                        bullet := false;
                        checkbox := false;
                        indent_level := 0;
                        is_footer := false;
                        mention_spans := [] |})
        | None =>
            match re_match BULLET_PATTERN line with
            | Some (_, groups) =>
                '(indent, _, remainder) <- unpack3 groups ;;
                let '(checkbox, content) :=
                  if startswith remainder (py "[ ]")
                  then (true, strip (skipn 3 remainder))
                  else (false, remainder) in
                let clean_text := strip content in
                Ok (Some {| text := clean_text;
                            named_style := NORMAL_TEXT;
                            bullet := true;
                            checkbox := checkbox;
                            indent_level := len indent / 2;
                            is_footer := false;
                            mention_spans := _extract_mentions clean_text |})
            | None =>
                Ok (Some {| text := line;
                            named_style := NORMAL_TEXT;
                            bullet := false;
                            checkbox := false;
                            indent_level := 0;
                            is_footer :=
                              startswith (lower line) (py "meeting recorded")
                              || startswith (lower line) (py "duration");
                            mention_spans := _extract_mentions line |})
            end
        end
  end.

(** The loop of [parse_markdown] over the lines, [paragraphs] being the list
    built so far. *)
Fixpoint parse_lines (paragraphs : list ParagraphSpec) (lines : list pystr)
  : result (list ParagraphSpec) :=
  match lines with
  | [] => Ok paragraphs
  | raw_line :: lines' =>
      appended <- parse_line raw_line ;;
      parse_lines
        (match appended with
         | Some paragraph => paragraphs ++ [paragraph]
         | None => paragraphs
         end)
        lines'
  end.

Definition parse_markdown (markdown_text : pystr) : result (list ParagraphSpec) :=
  parse_lines [] (splitlines markdown_text).

End Parser.

(** ** Requests of the Docs API *)

Definition INDENT_WIDTH_PT : Z := 18.

Record Range := { startIndex : Z; endIndex : Z }.

Record Dimension := { magnitude : Z; unit_ : pystr }.

Record RgbColor := { red : float; green : float; blue : float }.

(** A [textStyle] dictionary: a key that is absent is [None]. *)
Record TextStyle := {
  italic : option bool;
  bold : option bool;
  foregroundColor : option RgbColor
}.

Inductive ParagraphStyle :=
| namedStyleType (style : pystr)
| indentStartFirstLine (indentStart indentFirstLine : Dimension).

Inductive Request :=
| insertText (index : Z) (text : pystr)
| updateParagraphStyle (range : Range) (paragraphStyle : ParagraphStyle) (fields : pystr)
| createParagraphBullets (range : Range) (bulletPreset : pystr)
| updateTextStyle (range : Range) (textStyle : TextStyle) (fields : pystr).

(** ** The request builder of [populate_document] *)

(** The line feed that ends the text of a paragraph. *)
Definition LF : pystr := [0x0A%N].

(** The state of the first loop: the requests, the cursor and the ranges. *)
Record InsertState := {
  requests : list Request;
  cursor : Z;
  paragraph_ranges : list (Z * Z)
}.

Definition insert_step (st : InsertState) (spec : ParagraphSpec) : InsertState :=
  let text := text spec ++ LF in
  let text_length := len text in
  {| requests := requests st ++ [insertText (cursor st) text];
     paragraph_ranges := paragraph_ranges st ++ [(cursor st, cursor st + text_length)%Z];
     cursor := (cursor st + text_length)%Z |}.

Definition insertion_pass (paragraphs : list ParagraphSpec) : InsertState :=
  fold_left insert_step paragraphs
    {| requests := []; cursor := 1; paragraph_ranges := [] |}.

#[warnings="-inexact-float"]
Definition footer_style : TextStyle :=
  {| italic := Some true;
     bold := None;
     foregroundColor := Some {| red := 0.4; green := 0.4; blue := 0.4 |} |}.

#[warnings="-inexact-float"]
Definition mention_style : TextStyle :=
  {| italic := None;
     bold := Some true;
     foregroundColor := Some {| red := 0.15; green := 0.15; blue := 0.6 |} |}.

Definition mention_step (start : Z) (requests : list Request) (span : Z * Z)
  : list Request :=
  let '(span_start, span_end) := span in
  requests ++
  [updateTextStyle
     {| startIndex := start + span_start; endIndex := start + span_end |}
     mention_style (py "bold,foregroundColor")].

(** The body of the second loop: the requests after one paragraph and its
    range have been handled. *)
Definition style_step (requests : list Request)
  (item : ParagraphSpec * (Z * Z)) : list Request :=
  let '(spec, (start, end_)) := item in
  let range := {| startIndex := start; endIndex := end_ |} in
  let requests :=
    if negb (str_eqb (named_style spec) NORMAL_TEXT)
    then requests ++
         [updateParagraphStyle range (namedStyleType (named_style spec))
            (py "namedStyleType")]
    else requests in
  let requests :=
    if bullet spec then
      let indent := (indent_level spec * INDENT_WIDTH_PT)%Z in
      let requests :=
        if negb (indent =? 0)%Z
        then requests ++
             [updateParagraphStyle range
                (indentStartFirstLine
                   {| magnitude := indent; unit_ := py "PT" |}
                   {| magnitude := indent; unit_ := py "PT" |})
                (py "indentStart,indentFirstLine")]
        else requests in
      let bullet_preset :=
        if checkbox spec then py "BULLET_CHECKBOX"
        else py "BULLET_DISC_CIRCLE_SQUARE" in
      requests ++ [createParagraphBullets range bullet_preset]
    else requests in
  let requests :=
    if is_footer spec
    then requests ++
         [updateTextStyle
            {| startIndex := start; endIndex := start + len (text spec) |}
            footer_style (py "italic,foregroundColor")]
    else requests in
  match mention_spans spec with
  | [] => requests
  | _ :: _ => fold_left (mention_step start) (mention_spans spec) requests
  end.

(** The list [requests] that [populate_document] sends: both loops. *)
Definition build_requests (paragraphs : list ParagraphSpec) : list Request :=
  let st := insertion_pass paragraphs in
  fold_left style_step (combine paragraphs (paragraph_ranges st)) (requests st).

(** ** The remote service and the converter *)

(** The response of [documents().create(...).execute()], a dictionary:
    [documentId] is the value under the key of that name, when the
    dictionary has the key. *)
Record Document := { documentId : option pystr }.

(** What a call of the service does: it returns the response, or it raises
    [HttpError], or it raises an exception of another class (a failure of
    the transport, a timeout). *)
Inductive outcome (A : Type) :=
| Returned (a : A)
| Failed (exc : HttpError)
| Crashed (exc : OtherException).
Arguments Returned {A} a.
Arguments Failed {A} exc.
Arguments Crashed {A} exc.

(** The Docs service: a state machine over its own state [W]. *)
Record DocsService (W : Type) := {
  documents_create : pystr -> W -> outcome Document * W;
  documents_batchUpdate : pystr -> list Request -> W -> outcome unit * W
}.

(** A call made to the service, with its arguments. *)
Inductive Call :=
| create_call (title : pystr)
| batchUpdate_call (documentId : pystr) (body_requests : list Request).

(** The service state and the calls made so far, oldest first. *)
Record Session (W : Type) := { world : W; calls : list Call }.

Definition fresh {W} (w : W) : Session W := {| world := w; calls := [] |}.

Section Converter.

Variable W : Type.
(** [self._docs_service] *)
Variable docs_service : DocsService W.

(** The call is inside the [try], whose one handler is [except HttpError]:
    an exception of another class goes through it.  The subscript of the
    response by [documentId] comes after the [try], so the [KeyError] of a
    response without that key is not caught either. *)
Definition create_document (title : pystr) (s : Session W)
  : result pystr * Session W :=
  let '(executed, w) := documents_create docs_service title (world s) in
  let s' := {| world := w; calls := calls s ++ [create_call title] |} in
  match executed with
  | Failed exc =>
      (Raise (RuntimeError (py "Failed to create document: " ++ http_str exc) exc), s')
  | Crashed exc => (Raise (Uncaught exc), s')
  | Returned document =>
      match documentId document with
      | Some document_id => (Ok document_id, s')
      | None => (Raise (KeyError (py "documentId")), s')
      end
  end.

(** The requests are built first; the one call is inside a [try] with the
    one handler [except HttpError], and its response is dropped. *)
Definition populate_document (document_id : pystr)
  (paragraphs : list ParagraphSpec) (s : Session W) : result unit * Session W :=
  let requests := build_requests paragraphs in
  let '(executed, w) :=
    documents_batchUpdate docs_service document_id requests (world s) in
  let s' := {| world := w;
               calls := calls s ++ [batchUpdate_call document_id requests] |} in
  match executed with
  | Failed exc =>
      (Raise (RuntimeError (py "Failed to update document: " ++ http_str exc) exc), s')
  | Crashed exc => (Raise (Uncaught exc), s')
  | Returned _ => (Ok tt, s')
  end.

Variable uni_alnum : char -> bool.
Variable uni_lower : pystr -> pystr.

Definition convert_notes_to_doc (markdown_text title : pystr) (s : Session W)
  : result pystr * Session W :=
  match parse_markdown uni_alnum uni_lower markdown_text with
  | Raise e => (Raise e, s)
  | Ok paragraphs =>
      match create_document title s with
      | (Raise e, s1) => (Raise e, s1)
      | (Ok document_id, s1) =>
          match populate_document document_id paragraphs s1 with
          | (Raise e, s2) => (Raise e, s2)
          | (Ok _, s2) => (Ok document_id, s2)
          end
      end
  end.

End Converter.

(** The request lists submitted by the [batchUpdate] calls of a trace. *)
Definition submitted (trace : list Call) : list (list Request) :=
  flat_map (fun c => match c with
                     | batchUpdate_call _ body => [body]
                     | create_call _ => []
                     end) trace.

(** ** Vocabulary of the statements *)

Definition is_insertText (r : Request) : bool :=
  match r with
  | insertText _ _ => true
  | _ => false
  end.

(** [r] is a text-style update over [[s, e)] that sets italic and the
    foreground colour rgb(0.4, 0.4, 0.4). *)
#[warnings="-inexact-float"]
Definition is_footer_update (s e : Z) (r : Request) : bool :=
  match r with
  | updateTextStyle range style _ =>
      (startIndex range =? s)%Z && (endIndex range =? e)%Z
      && match italic style with Some true => true | _ => false end
      && match foregroundColor style with
         | Some c => (red c =? 0.4)%float && (green c =? 0.4)%float
                     && (blue c =? 0.4)%float
         | None => false
         end
  | _ => false
  end.

Definition count (f : Request -> bool) (l : list Request) : nat :=
  List.length (filter f l).

(** The space a paragraph takes in the document: its text and a line feed. *)
Definition width (spec : ParagraphSpec) : Z := len (text spec) + 1.

Definition total_width (paragraphs : list ParagraphSpec) : Z :=
  fold_right Z.add 0%Z (map width paragraphs).

(** The ranges of the paragraphs when the first one starts at [cur]. *)
Fixpoint ranges_from (cur : Z) (paragraphs : list ParagraphSpec) : list (Z * Z) :=
  match paragraphs with
  | [] => []
  | spec :: rest => (cur, cur + width spec)%Z :: ranges_from (cur + width spec) rest
  end.

(** The insertion of one paragraph at the start of its range. *)
Definition insertion_of (item : ParagraphSpec * (Z * Z)) : Request :=
  insertText (fst (snd item)) (text (fst item) ++ LF).

(** The highlight of one mention of a paragraph that starts at [start]. *)
Definition mention_update (start : Z) (span : Z * Z) : Request :=
  updateTextStyle
    {| startIndex := start + fst span; endIndex := start + snd span |}
    mention_style (py "bold,foregroundColor").

(** The italic grey of a footer paragraph that starts at [start]. *)
Definition footer_update (start : Z) (spec : ParagraphSpec) : Request :=
  updateTextStyle
    {| startIndex := start; endIndex := start + len (text spec) |}
    footer_style (py "italic,foregroundColor").

(** The styling requests of one paragraph, on their own. *)
Definition styling_of (item : ParagraphSpec * (Z * Z)) : list Request :=
  style_step [] item.

(** The requests one paragraph adds, one optional group after the other. *)
Definition styling_groups (spec : ParagraphSpec) (start end_ : Z) : list Request :=
  let range := {| startIndex := start; endIndex := end_ |} in
  (if negb (str_eqb (named_style spec) NORMAL_TEXT)
   then [updateParagraphStyle range (namedStyleType (named_style spec))
           (py "namedStyleType")]
   else [])
  ++ (if bullet spec
      then (if negb (indent_level spec * INDENT_WIDTH_PT =? 0)%Z
            then [updateParagraphStyle range
                    (indentStartFirstLine
                       {| magnitude := indent_level spec * INDENT_WIDTH_PT;
                          unit_ := py "PT" |}
                       {| magnitude := indent_level spec * INDENT_WIDTH_PT;
                          unit_ := py "PT" |})
                    (py "indentStart,indentFirstLine")]
            else [])
           ++ [createParagraphBullets range
                 (if checkbox spec then py "BULLET_CHECKBOX"
                  else py "BULLET_DISC_CIRCLE_SQUARE")]
      else [])
  ++ (if is_footer spec then [footer_update start spec] else [])
  ++ map (mention_update start) (mention_spans spec).

(** The three kinds of paragraph that [parse_line] builds. *)
Inductive line_paragraph (uni_alnum : char -> bool) (uni_lower : pystr -> pystr)
  (line : pystr) : ParagraphSpec -> Prop :=
| heading_paragraph n hashes title :
    re_match HEADING_PATTERN line = Some (n, [hashes; title]) ->
    line_paragraph uni_alnum uni_lower line
      {| text := strip title;
         named_style := py "HEADING_" ++ str_of_int (Z.min (len hashes) 3);
         bullet := false; checkbox := false; indent_level := 0;
         is_footer := false; mention_spans := [] |}
| bullet_paragraph n indent marker remainder :
    re_match HEADING_PATTERN line = None ->
    re_match BULLET_PATTERN line = Some (n, [indent; marker; remainder]) ->
    let checked := startswith remainder (py "[ ]") in
    let clean_text :=
      strip (if checked then strip (skipn 3 remainder) else remainder) in
    line_paragraph uni_alnum uni_lower line
      {| text := clean_text;
         named_style := NORMAL_TEXT;
         bullet := true; checkbox := checked;
         indent_level := len indent / 2;
         is_footer := false;
         mention_spans := _extract_mentions uni_alnum clean_text |}
| plain_paragraph :
    re_match HEADING_PATTERN line = None ->
    re_match BULLET_PATTERN line = None ->
    line_paragraph uni_alnum uni_lower line
      {| text := line;
         named_style := NORMAL_TEXT;
         bullet := false; checkbox := false; indent_level := 0;
         is_footer :=
           startswith (lower uni_lower line) (py "meeting recorded")
           || startswith (lower uni_lower line) (py "duration");
         mention_spans := _extract_mentions uni_alnum line |}.

(** The paragraph of a line, [parse_line] being total. *)
Definition paragraph_of_line (uni_alnum : char -> bool) (uni_lower : pystr -> pystr)
  (raw_line : pystr) : list ParagraphSpec :=
  match parse_line uni_alnum uni_lower raw_line with
  | Ok (Some paragraph) => [paragraph]
  | _ => []
  end.

(** The characters the statements name. *)
Definition HASH : char := N_of_ascii "#".
Definition SPACE : char := N_of_ascii " ".
Definition AT : char := N_of_ascii "@".

(** [text[a:b]] is an at sign and one or more [\w], and cannot be made
    longer at its end. *)
Definition run_at (uni_alnum : char -> bool) (s : pystr) (a b : nat) : Prop :=
  nth_error s a = Some AT
  /\ a + 1 < b
  /\ b <= List.length s
  /\ (forall i, a < i < b -> exists c, nth_error s i = Some c /\ is_word uni_alnum c = true)
  /\ (forall c, nth_error s b = Some c -> is_word uni_alnum c = false).

(** Matches in the order found: each starts at or after [lo] and ends
    after its start, and the next ones start at or after its end. *)
Fixpoint chain (lo : nat) (l : list (nat * nat)) : Prop :=
  match l with
  | [] => True
  | m :: l' => lo <= fst m /\ fst m < snd m /\ chain (snd m) l'
  end.

(** The character at an offset that is an [int]: none outside the text. *)
Definition char_at (s : pystr) (i : Z) : option char :=
  if (i <? 0)%Z then None else nth_error s (Z.to_nat i).

(** [s[a:b]] matches the mention pattern: an at sign, then one or more
    [\w], inside the text. *)
Definition mention_match (uni_alnum : char -> bool) (s : pystr) (a b : Z) : Prop :=
  char_at s a = Some AT
  /\ (a + 1 < b)%Z
  /\ (b <= len s)%Z
  /\ (forall i, (a < i < b)%Z ->
                exists c, char_at s i = Some c /\ is_word uni_alnum c = true).

(** A match that no other match contains. *)
Definition maximal_mention (uni_alnum : char -> bool) (s : pystr) (a b : Z) : Prop :=
  mention_match uni_alnum s a b
  /\ (forall a' b',
         mention_match uni_alnum s a' b' -> (a' <= a)%Z -> (b <= b')%Z ->
         a' = a /\ b' = b).

(** The exception is a [RuntimeError], which wraps a failure of the
    service. *)
Definition is_wrapped (e : exn) : bool :=
  match e with
  | RuntimeError _ _ => true
  | _ => false
  end.

(** ** Data of the examples *)

(** A Unicode database for the examples, which are ASCII and never consult
    it: no other character is alphanumeric, and [lower] leaves a text that
    is not ASCII as it is. *)
Definition no_alnum : char -> bool := fun _ => false.
Definition same_lower : pystr -> pystr := fun s => s.

Definition sample_heading : ParagraphSpec :=
  {| text := py "Notes"; named_style := py "HEADING_1";
     bullet := false; checkbox := false; indent_level := 0;
     is_footer := false; mention_spans := [] |}.

Definition sample_footer : ParagraphSpec :=
  {| text := py "Duration: 5"; named_style := NORMAL_TEXT;
     bullet := false; checkbox := false; indent_level := 0;
     is_footer := true; mention_spans := [] |}.

Definition sample_mention : ParagraphSpec :=
  {| text := py "ask @eve"; named_style := NORMAL_TEXT;
     bullet := true; checkbox := false; indent_level := 1;
     is_footer := false; mention_spans := [(4, 8)%Z] |}.

(** A service that creates the document and refuses the update. *)
Definition quota_error : HttpError :=
  {| http_status := 429; http_str := py "quota exceeded" |}.

Definition refusing_service : DocsService nat :=
  {| documents_create :=
       fun _ n => (Returned {| documentId := Some (py "doc-1") |}, S n);
     documents_batchUpdate := fun _ _ n => (Failed quota_error, S n) |}.

(** A service that cannot be reached: every call times out. *)
Definition timeout_error : OtherException :=
  {| exc_class := py "TimeoutError"; exc_str := py "timed out" |}.

Definition unreachable_service : DocsService nat :=
  {| documents_create := fun _ n => (Crashed timeout_error, S n);
     documents_batchUpdate := fun _ _ n => (Crashed timeout_error, S n) |}.

(** ** The two line patterns without a matcher *)

(** The longest prefix of [s] in the class [f]. *)
Definition take_while (f : char -> bool) (s : pystr) : pystr :=
  firstn (run_length f s) s.

(** A heading line: one to six [#] at its start, and a space after them.
    The groups are the [#] and what follows the spaces, up to a line feed. *)
Definition heading_parts (line : pystr) : option (pystr * pystr) :=
  let a := run_length (is_char "#") line in
  if (1 <=? a) && (a <=? 6) && (1 <=? run_length is_space (skipn a line))
  then Some (firstn a line, take_while dot (lstrip (skipn a line)))
  else None.

(** A bullet line: after its leading spaces a dash or an asterisk, and a
    space after it.  The groups are the leading spaces, the marker and what
    follows the spaces after the marker, up to a line feed. *)
Definition bullet_parts (line : pystr) : option (pystr * pystr * pystr) :=
  let w := run_length is_space line in
  match skipn w line with
  | c :: rest =>
      if dash_or_star c && (1 <=? run_length is_space rest)
      then Some (firstn w line, [c], take_while dot (lstrip rest))
      else None
  | [] => None
  end.

(** A line that gives a paragraph: not blank, and not a rule. *)
Definition keeps_line (raw_line : pystr) : bool :=
  match rstrip raw_line with
  | [] => false
  | _ :: _ => negb (str_eqb (strip (rstrip raw_line)) (py "---"))
  end.

(** ** The document that the requests describe *)

(** The texts of the insertions of a request list, one after the other. *)
Definition inserted_text (reqs : list Request) : pystr :=
  flat_map (fun r => match r with
                     | insertText _ t => t
                     | _ => []
                     end) reqs.

(** [s[a:b]] for [0 <= a <= b]. *)
Definition slice (s : pystr) (a b : Z) : pystr :=
  firstn (Z.to_nat (b - a)) (skipn (Z.to_nat a) s).

(** The range of a request lies in [[lo, hi]] and is not empty; an insertion
    is at an index from [lo] to below [hi]. *)
Definition addresses (lo hi : Z) (r : Request) : Prop :=
  match r with
  | insertText index _ => (lo <= index < hi)%Z
  | updateParagraphStyle range _ _
  | createParagraphBullets range _
  | updateTextStyle range _ _ =>
      (lo <= startIndex range)%Z
      /\ (startIndex range < endIndex range)%Z
      /\ (endIndex range <= hi)%Z
  end.

(** The kinds of styling request. *)
Definition is_named_style_update (r : Request) : bool :=
  match r with
  | updateParagraphStyle _ (namedStyleType _) _ => true
  | _ => false
  end.

Definition is_indent_update (r : Request) : bool :=
  match r with
  | updateParagraphStyle _ (indentStartFirstLine _ _) _ => true
  | _ => false
  end.

Definition is_bullets (r : Request) : bool :=
  match r with
  | createParagraphBullets _ _ => true
  | _ => false
  end.

Definition is_italic_update (r : Request) : bool :=
  match r with
  | updateTextStyle _ style _ =>
      match italic style with Some true => true | _ => false end
  | _ => false
  end.

Definition is_bold_update (r : Request) : bool :=
  match r with
  | updateTextStyle _ style _ =>
      match bold style with Some true => true | _ => false end
  | _ => false
  end.

Definition is_heading (spec : ParagraphSpec) : bool :=
  negb (str_eqb (named_style spec) NORMAL_TEXT).

Definition is_indented_bullet (spec : ParagraphSpec) : bool :=
  bullet spec && negb (indent_level spec =? 0)%Z.

(** * Properties *)

(** ** The request builder *)

Lemma len_app (a b : pystr) : len (a ++ b) = (len a + len b)%Z.
Proof. unfold len. rewrite length_app. lia. Qed.

Lemma len_nonneg (s : pystr) : (0 <= len s)%Z.
Proof. unfold len. lia. Qed.

Lemma width_pos (spec : ParagraphSpec) : (1 <= width spec)%Z.
Proof. unfold width. pose proof (len_nonneg (text spec)). lia. Qed.

Lemma insert_step_width (st : InsertState) (spec : ParagraphSpec) :
  insert_step st spec =
  {| requests := requests st ++ [insertion_of (spec, (cursor st, cursor st + width spec)%Z)];
     cursor := cursor st + width spec;
     paragraph_ranges := paragraph_ranges st ++ [(cursor st, cursor st + width spec)%Z] |}.
Proof.
  unfold insert_step, insertion_of, width. simpl.
  rewrite len_app. reflexivity.
Qed.

(** The first loop from any state: what it adds to the state. *)
Lemma fold_insert_step (paragraphs : list ParagraphSpec) :
  forall st,
    fold_left insert_step paragraphs st =
    {| requests := requests st ++
                   map insertion_of (combine paragraphs (ranges_from (cursor st) paragraphs));
       cursor := cursor st + total_width paragraphs;
       paragraph_ranges := paragraph_ranges st ++ ranges_from (cursor st) paragraphs |}.
Proof.
  induction paragraphs as [|spec rest IH]; intros st.
  - simpl. unfold total_width. simpl. rewrite !app_nil_r, Z.add_0_r.
    destruct st; reflexivity.
  - cbn [fold_left]. rewrite IH, insert_step_width.
    cbn [requests cursor paragraph_ranges ranges_from combine map].
    unfold total_width. cbn [map fold_right].
    rewrite <- !app_assoc. cbn [app]. f_equal. lia.
Qed.

Lemma insertion_pass_eq (paragraphs : list ParagraphSpec) :
  insertion_pass paragraphs =
  {| requests := map insertion_of (combine paragraphs (ranges_from 1 paragraphs));
     cursor := 1 + total_width paragraphs;
     paragraph_ranges := ranges_from 1 paragraphs |}.
Proof. unfold insertion_pass. rewrite fold_insert_step. reflexivity. Qed.

Lemma fold_mention_step (start : Z) (spans : list (Z * Z)) :
  forall reqs,
    fold_left (mention_step start) spans reqs =
    reqs ++ map (mention_update start) spans.
Proof.
  induction spans as [|[a b] spans IH]; intros reqs.
  - simpl. now rewrite app_nil_r.
  - cbn [fold_left map]. rewrite IH. unfold mention_step, mention_update.
    now rewrite <- app_assoc.
Qed.

Lemma mention_guard (start : Z) (spans : list (Z * Z)) (reqs : list Request) :
  match spans with
  | [] => reqs
  | _ :: _ => fold_left (mention_step start) spans reqs
  end = reqs ++ map (mention_update start) spans.
Proof.
  destruct spans.
  - simpl. now rewrite app_nil_r.
  - apply fold_mention_step.
Qed.

Lemma style_step_groups (reqs : list Request) (spec : ParagraphSpec) (start end_ : Z) :
  style_step reqs (spec, (start, end_)) = reqs ++ styling_groups spec start end_.
Proof.
  unfold style_step, styling_groups. rewrite mention_guard.
  destruct (negb (str_eqb (named_style spec) NORMAL_TEXT));
    destruct (bullet spec);
    destruct (negb (indent_level spec * INDENT_WIDTH_PT =? 0)%Z);
    destruct (is_footer spec);
    cbn [app]; rewrite <- ?app_assoc; cbn [app]; rewrite ?app_nil_r; reflexivity.
Qed.

Lemma styling_of_eq (spec : ParagraphSpec) (start end_ : Z) :
  styling_of (spec, (start, end_)) = styling_groups spec start end_.
Proof. unfold styling_of. now rewrite style_step_groups. Qed.

(** The second loop only appends: its body adds [styling_of] the item. *)
Lemma style_step_app (reqs : list Request) (item : ParagraphSpec * (Z * Z)) :
  style_step reqs item = reqs ++ styling_of item.
Proof.
  destruct item as [spec [start end_]].
  now rewrite styling_of_eq, style_step_groups.
Qed.

Lemma fold_style_step (items : list (ParagraphSpec * (Z * Z))) :
  forall reqs,
    fold_left style_step items reqs = reqs ++ flat_map styling_of items.
Proof.
  induction items as [|item items IH]; intros reqs; simpl.
  - now rewrite app_nil_r.
  - rewrite IH, style_step_app. now rewrite <- app_assoc.
Qed.

(** The requests are the insertions, then the styling of each paragraph. *)
Lemma build_requests_eq (paragraphs : list ParagraphSpec) :
  let items := combine paragraphs (ranges_from 1 paragraphs) in
  build_requests paragraphs = map insertion_of items ++ flat_map styling_of items.
Proof.
  unfold build_requests. rewrite fold_style_step, insertion_pass_eq. reflexivity.
Qed.

(** *** Ranges *)

Lemma ranges_from_length (paragraphs : list ParagraphSpec) :
  forall cur, List.length (ranges_from cur paragraphs) = List.length paragraphs.
Proof.
  induction paragraphs as [|spec rest IH]; intros cur; simpl; [reflexivity|].
  now rewrite IH.
Qed.

Lemma ranges_from_nth (paragraphs : list ParagraphSpec) :
  forall cur i r,
    nth_error (ranges_from cur paragraphs) i = Some r ->
    (cur <= fst r)%Z /\
    exists spec, nth_error paragraphs i = Some spec /\
                 snd r = (fst r + width spec)%Z.
Proof.
  induction paragraphs as [|spec rest IH]; intros cur i r H.
  - destruct i; discriminate.
  - destruct i as [|i]; simpl in H.
    + injection H as <-. simpl. split; [lia|]. now exists spec.
    + destruct (IH _ _ _ H) as [Hle Hspec].
      pose proof (width_pos spec). split; [lia|exact Hspec].
Qed.

Lemma ranges_from_next (paragraphs : list ParagraphSpec) :
  forall cur i r r',
    nth_error (ranges_from cur paragraphs) i = Some r ->
    nth_error (ranges_from cur paragraphs) (S i) = Some r' ->
    fst r' = snd r.
Proof.
  induction paragraphs as [|spec rest IH]; intros cur i r r' H H'.
  - destruct i; discriminate.
  - destruct i as [|i]; simpl in H, H'.
    + injection H as <-. destruct rest as [|spec' rest]; [discriminate|].
      simpl in H'. injection H' as <-. reflexivity.
    + eapply IH; eassumption.
Qed.

Lemma ranges_from_ordered (paragraphs : list ParagraphSpec) :
  forall cur i j r r',
    i < j ->
    nth_error (ranges_from cur paragraphs) i = Some r ->
    nth_error (ranges_from cur paragraphs) j = Some r' ->
    (snd r <= fst r')%Z.
Proof.
  induction paragraphs as [|spec rest IH]; intros cur i j r r' Hij H H'.
  - destruct i; discriminate.
  - destruct j as [|j]; [lia|]. destruct i as [|i]; simpl in H, H'.
    + injection H as <-. simpl. now apply ranges_from_nth in H'.
    + apply (IH (cur + width spec)%Z i j); [lia|assumption..].
Qed.

(** C5: the ranges that [populate_document] computes are as many as the
    paragraphs; each is [len(text) + 1] long; the first starts at 1; each
    next one starts where the one before ends, so that an earlier range ends
    at or before the start of any later one; and the cursor ends at 1 plus
    the sum of the [len(text) + 1]. *)
Theorem paragraph_ranges_contiguous (paragraphs : list ParagraphSpec) :
  let st := insertion_pass paragraphs in
  let ranges := paragraph_ranges st in
  List.length ranges = List.length paragraphs
  /\ (forall i spec r,
         nth_error paragraphs i = Some spec -> nth_error ranges i = Some r ->
         (snd r - fst r = len (text spec) + 1)%Z)
  /\ (forall r, nth_error ranges 0 = Some r -> fst r = 1%Z)
  /\ (forall i r r',
         nth_error ranges i = Some r -> nth_error ranges (S i) = Some r' ->
         fst r' = snd r)
  /\ (forall i j r r',
         i < j -> nth_error ranges i = Some r -> nth_error ranges j = Some r' ->
         (snd r <= fst r')%Z)
  /\ cursor st = (1 + total_width paragraphs)%Z.
Proof.
  cbv zeta. rewrite insertion_pass_eq. cbn [paragraph_ranges cursor].
  repeat split.
  - apply ranges_from_length.
  - intros i spec r Hspec Hr.
    destruct (ranges_from_nth _ _ _ Hr) as [_ [spec' [Hspec' Hsnd]]].
    assert (spec' = spec) by congruence. subst spec'.
    rewrite Hsnd. unfold width. lia.
  - intros r Hr. destruct paragraphs; [discriminate|].
    simpl in Hr. now injection Hr as <-.
  - apply ranges_from_next.
  - apply ranges_from_ordered.
Qed.

(** *** Order of the requests *)

Lemma styling_groups_not_insert (spec : ParagraphSpec) (start end_ : Z) :
  Forall (fun r => is_insertText r = false) (styling_groups spec start end_).
Proof.
  unfold styling_groups.
  repeat (apply Forall_app; split).
  - destruct (negb _); repeat constructor.
  - destruct (bullet spec); [|constructor].
    apply Forall_app; split; [destruct (negb _)|]; repeat constructor.
  - destruct (is_footer spec); repeat constructor.
  - apply Forall_forall. intros r Hr. apply in_map_iff in Hr.
    destruct Hr as [span [<- _]]. reflexivity.
Qed.

Lemma styling_not_insert (items : list (ParagraphSpec * (Z * Z))) :
  Forall (fun r => is_insertText r = false) (flat_map styling_of items).
Proof.
  induction items as [|[spec [start end_]] items IH]; cbn [flat_map]; [constructor|].
  apply Forall_app; split; [|exact IH].
  rewrite styling_of_eq. apply styling_groups_not_insert.
Qed.

Lemma combine_ranges_length (paragraphs : list ParagraphSpec) (cur : Z) :
  List.length (combine paragraphs (ranges_from cur paragraphs)) = List.length paragraphs.
Proof. rewrite length_combine, ranges_from_length. lia. Qed.

Lemma combine_nth {A B} (l : list A) :
  forall (l' : list B) i a b,
    nth_error l i = Some a -> nth_error l' i = Some b ->
    nth_error (combine l l') i = Some (a, b).
Proof.
  induction l as [|x l IH]; intros l' i a b Ha Hb.
  - destruct i; discriminate.
  - destruct l' as [|y l']; [destruct i; discriminate|].
    destruct i; simpl in *; [congruence|auto].
Qed.

(** C6: the first requests are the insertions, one per paragraph and in the
    order of the paragraphs, each at the start of the range of its paragraph
    with the text and a line feed; every request after them is a styling
    request; so an insertion always comes before a styling request. *)
Theorem insertions_before_styling (paragraphs : list ParagraphSpec) :
  let reqs := build_requests paragraphs in
  let ranges := paragraph_ranges (insertion_pass paragraphs) in
  (forall i spec,
      nth_error paragraphs i = Some spec ->
      exists r, nth_error ranges i = Some r /\
                nth_error reqs i = Some (insertText (fst r) (text spec ++ LF)))
  /\ (forall j r,
         List.length paragraphs <= j -> nth_error reqs j = Some r ->
         is_insertText r = false)
  /\ (forall i j r r',
         nth_error reqs i = Some r -> nth_error reqs j = Some r' ->
         is_insertText r = true -> is_insertText r' = false -> i < j).
Proof.
  cbv zeta. rewrite build_requests_eq, insertion_pass_eq.
  cbn [paragraph_ranges]. cbv zeta.
  set (items := combine paragraphs (ranges_from 1 paragraphs)).
  assert (Hlen : List.length (map insertion_of items) = List.length paragraphs).
  { unfold items. now rewrite length_map, combine_ranges_length. }
  assert (Hlate : forall j r,
             List.length paragraphs <= j ->
             nth_error (map insertion_of items ++ flat_map styling_of items) j = Some r ->
             is_insertText r = false).
  { intros j r Hj Hr. rewrite nth_error_app2 in Hr by lia.
    apply nth_error_In in Hr.
    pose proof (styling_not_insert items) as Hall.
    rewrite Forall_forall in Hall. now apply Hall. }
  split; [|split].
  - intros i spec Hspec.
    assert (Hi : i < List.length (ranges_from 1 paragraphs)).
    { rewrite ranges_from_length. apply nth_error_Some. congruence. }
    destruct (nth_error (ranges_from 1 paragraphs) i) as [r|] eqn:Hr;
      [|apply nth_error_None in Hr; lia].
    exists r. split; [reflexivity|].
    rewrite nth_error_app1 by (rewrite Hlen, <- (ranges_from_length paragraphs 1); exact Hi).
    rewrite nth_error_map. unfold items.
    now rewrite (combine_nth _ _ _ Hspec Hr).
  - exact Hlate.
  - intros i j r r' Hr Hr' Hins Hsty.
    destruct (Nat.lt_ge_cases i (List.length paragraphs)) as [Hi|Hi];
      [|rewrite (Hlate _ _ Hi Hr) in Hins; discriminate].
    destruct (Nat.lt_ge_cases j (List.length paragraphs)) as [Hj|Hj]; [|lia].
    rewrite nth_error_app1 in Hr' by lia.
    rewrite nth_error_map in Hr'.
    destruct (nth_error items j); [|discriminate].
    injection Hr' as <-. discriminate.
Qed.

(** *** The footer update *)

Lemma count_app (f : Request -> bool) (a b : list Request) :
  count f (a ++ b) = count f a + count f b.
Proof. unfold count. now rewrite filter_app, length_app. Qed.

Lemma count_none (f : Request -> bool) (l : list Request) :
  Forall (fun r => f r = false) l -> count f l = 0.
Proof.
  unfold count. induction 1 as [|r l Hr _ IH]; simpl; [reflexivity|].
  now rewrite Hr.
Qed.

Lemma footer_update_is_footer_update (start : Z) (spec : ParagraphSpec) (s e : Z) :
  is_footer_update s e (footer_update start spec) =
  ((start =? s) && (start + len (text spec) =? e))%Z.
Proof.
  unfold is_footer_update, footer_update. cbn.
  now rewrite !andb_true_r.
Qed.

(** Among the requests of one paragraph, only its footer update is one. *)
Lemma count_styling_groups (spec : ParagraphSpec) (start end_ s e : Z) :
  count (is_footer_update s e) (styling_groups spec start end_) =
  if is_footer spec && ((start =? s) && (start + len (text spec) =? e))%Z
  then 1 else 0.
Proof.
  unfold styling_groups. rewrite !count_app.
  rewrite (@count_none _ (map _ _)).
  2:{ apply Forall_forall. intros r Hr. apply in_map_iff in Hr.
      destruct Hr as [span [<- _]]. unfold is_footer_update, mention_update. cbn.
      now rewrite andb_false_r. }
  rewrite (@count_none _ (if negb _ then _ else _)).
  2:{ destruct (negb _); repeat constructor. }
  rewrite (@count_none _ (if bullet spec then _ else _)).
  2:{ destruct (bullet spec); [|constructor].
      apply Forall_app; split; [destruct (negb _)|]; repeat constructor. }
  destruct (is_footer spec); cbn [andb]; [|reflexivity].
  unfold count. cbn [filter]. rewrite footer_update_is_footer_update.
  destruct (_ && _); reflexivity.
Qed.

(** Paragraphs that start after [s] have no update over a range from [s]. *)
Lemma count_styling_later (paragraphs : list ParagraphSpec) (s e : Z) :
  forall cur,
    (s < cur)%Z ->
    count (is_footer_update s e)
      (flat_map styling_of (combine paragraphs (ranges_from cur paragraphs))) = 0.
Proof.
  induction paragraphs as [|spec rest IH]; intros cur Hlt; [reflexivity|].
  cbn [ranges_from combine flat_map]. rewrite count_app, styling_of_eq.
  rewrite count_styling_groups, IH by (pose proof (width_pos spec); lia).
  replace (cur =? s)%Z with false by (symmetry; apply Z.eqb_neq; lia).
  now rewrite andb_false_r.
Qed.

Lemma count_styling_at (paragraphs : list ParagraphSpec) :
  forall cur i spec start end_,
    nth_error paragraphs i = Some spec ->
    nth_error (ranges_from cur paragraphs) i = Some (start, end_) ->
    is_footer spec = true ->
    count (is_footer_update start (start + len (text spec)))
      (flat_map styling_of (combine paragraphs (ranges_from cur paragraphs))) = 1.
Proof.
  induction paragraphs as [|spec0 rest IH]; intros cur i spec start end_ Hspec Hr Hfoot.
  - destruct i; discriminate.
  - cbn [ranges_from combine flat_map]. rewrite count_app, styling_of_eq.
    rewrite count_styling_groups.
    destruct i as [|i]; simpl in Hspec, Hr.
    + injection Hspec as ->. injection Hr as -> <-.
      rewrite Hfoot, !Z.eqb_refl. cbn [andb].
      rewrite count_styling_later by (pose proof (width_pos spec); lia).
      reflexivity.
    + pose proof (ranges_from_nth _ _ _ Hr) as [Hle _]. simpl in Hle.
      pose proof (width_pos spec0).
      replace (cur =? start)%Z with false by (symmetry; apply Z.eqb_neq; lia).
      rewrite andb_false_r. cbn [andb].
      now rewrite (IH _ _ _ _ _ Hspec Hr Hfoot).
Qed.

(** C7: for a footer paragraph whose range is [[start, end_)], exactly one
    of the requests is a text-style update over
    [[start, start + len(text))] that sets italic and the foreground colour
    rgb(0.4, 0.4, 0.4): the footer update of that paragraph. *)
Theorem footer_update_once (paragraphs : list ParagraphSpec)
  (i : nat) (spec : ParagraphSpec) (start end_ : Z) :
  nth_error paragraphs i = Some spec ->
  nth_error (paragraph_ranges (insertion_pass paragraphs)) i = Some (start, end_) ->
  is_footer spec = true ->
  count (is_footer_update start (start + len (text spec)))
    (build_requests paragraphs) = 1
  /\ In (updateTextStyle
           {| startIndex := start; endIndex := start + len (text spec) |}
           footer_style (py "italic,foregroundColor"))
        (build_requests paragraphs).
Proof.
  intros Hspec Hr Hfoot.
  rewrite build_requests_eq. rewrite insertion_pass_eq in Hr.
  cbn [paragraph_ranges] in Hr. cbv zeta.
  assert (Hcount :
    count (is_footer_update start (start + len (text spec)))
      (map insertion_of (combine paragraphs (ranges_from 1 paragraphs)) ++
       flat_map styling_of (combine paragraphs (ranges_from 1 paragraphs))) = 1).
  { rewrite count_app, (count_styling_at _ _ _ Hspec Hr Hfoot).
    rewrite count_none; [reflexivity|].
    apply Forall_forall. intros r Hin. apply in_map_iff in Hin.
    now destruct Hin as [item [<- _]]. }
  split; [exact Hcount|].
  apply in_or_app. right. apply in_flat_map.
  exists (spec, (start, end_)). split.
  - eapply nth_error_In. apply (combine_nth _ _ _ Hspec Hr).
  - rewrite styling_of_eq. unfold styling_groups. rewrite Hfoot.
    apply in_or_app. right. apply in_or_app. right. apply in_or_app. left.
    now left.
Qed.

(** ** The converter and the remote service *)

Section ConverterFacts.

Variable W : Type.
Variable docs_service : DocsService W.

(** [create_document] makes one call, whatever the service answers. *)
Lemma create_document_calls (title : pystr) (s : Session W) :
  calls (snd (create_document docs_service title s)) = calls s ++ [create_call title].
Proof.
  unfold create_document.
  destruct (documents_create docs_service title (world s)) as [[document|exc|exc] w];
    [destruct (documentId document)|..]; reflexivity.
Qed.

(** [populate_document] makes one call, with the requests it has built. *)
Lemma populate_document_calls (document_id : pystr)
  (paragraphs : list ParagraphSpec) (s : Session W) :
  calls (snd (populate_document docs_service document_id paragraphs s)) =
  calls s ++ [batchUpdate_call document_id (build_requests paragraphs)].
Proof.
  unfold populate_document.
  destruct (documents_batchUpdate docs_service document_id
              (build_requests paragraphs) (world s)) as [[[]|exc|exc] w];
    reflexivity.
Qed.

End ConverterFacts.

Lemma submitted_app (a b : list Call) : submitted (a ++ b) = submitted a ++ submitted b.
Proof. unfold submitted. apply flat_map_app. Qed.

(** C8: the requests that [populate_document] submits are the same for any
    two services, service states and document ids: they are
    [build_requests] of the paragraphs; and a converter that is run a second
    time, on the state the first run left, submits the same requests
    again. *)
Theorem populate_document_deterministic
  (W1 W2 : Type) (service1 : DocsService W1) (service2 : DocsService W2)
  (w1 : W1) (w2 : W2) (id1 id2 : pystr) (paragraphs : list ParagraphSpec) :
  let run1 := populate_document service1 id1 paragraphs (fresh w1) in
  let run2 := populate_document service2 id2 paragraphs (fresh w2) in
  let again := populate_document service1 id2 paragraphs (snd run1) in
  submitted (calls (snd run1)) = submitted (calls (snd run2))
  /\ submitted (calls (snd run1)) = [build_requests paragraphs]
  /\ submitted (calls (snd again)) = [build_requests paragraphs; build_requests paragraphs].
Proof.
  cbv zeta.
  rewrite !populate_document_calls, !submitted_app. cbn.
  repeat split.
Qed.

(** C9: an [HttpError] that the service raises in [create_document] or in
    [populate_document] is raised again as one [RuntimeError] whose message
    names the operation and whose cause is the failure; the service has been
    called once.  In [convert_notes_to_doc] a failed creation ends the run
    before any update is sent, and a failed update ends it with the error
    and no document id, after one creation and one update.  An exception of
    another class is not caught: it leaves [create_document],
    [populate_document] and [convert_notes_to_doc] as the service raised
    it, after the one call that raised it. *)
Theorem remote_failures_wrapped (W : Type) (docs_service : DocsService W)
  (uni_alnum : char -> bool) (uni_lower : pystr -> pystr) :
  (forall title s exc w,
      documents_create docs_service title (world s) = (Failed exc, w) ->
      create_document docs_service title s =
      (Raise (RuntimeError (py "Failed to create document: " ++ http_str exc) exc),
       {| world := w; calls := calls s ++ [create_call title] |}))
  /\ (forall document_id paragraphs s exc w,
         documents_batchUpdate docs_service document_id
           (build_requests paragraphs) (world s) = (Failed exc, w) ->
         populate_document docs_service document_id paragraphs s =
         (Raise (RuntimeError (py "Failed to update document: " ++ http_str exc) exc),
          {| world := w;
             calls := calls s ++
                      [batchUpdate_call document_id (build_requests paragraphs)] |}))
  /\ (forall markdown_text title s paragraphs exc w,
         parse_markdown uni_alnum uni_lower markdown_text = Ok paragraphs ->
         documents_create docs_service title (world s) = (Failed exc, w) ->
         convert_notes_to_doc docs_service uni_alnum uni_lower markdown_text title s =
         (Raise (RuntimeError (py "Failed to create document: " ++ http_str exc) exc),
          {| world := w; calls := calls s ++ [create_call title] |}))
  /\ (forall markdown_text title s paragraphs document document_id w exc w',
         parse_markdown uni_alnum uni_lower markdown_text = Ok paragraphs ->
         documents_create docs_service title (world s) = (Returned document, w) ->
         documentId document = Some document_id ->
         documents_batchUpdate docs_service document_id
           (build_requests paragraphs) w = (Failed exc, w') ->
         convert_notes_to_doc docs_service uni_alnum uni_lower markdown_text title s =
         (Raise (RuntimeError (py "Failed to update document: " ++ http_str exc) exc),
          {| world := w';
             calls := calls s ++
                      [create_call title;
                       batchUpdate_call document_id (build_requests paragraphs)] |}))
  /\ (forall title s exc w,
         documents_create docs_service title (world s) = (Crashed exc, w) ->
         create_document docs_service title s =
         (Raise (Uncaught exc),
          {| world := w; calls := calls s ++ [create_call title] |}))
  /\ (forall document_id paragraphs s exc w,
         documents_batchUpdate docs_service document_id
           (build_requests paragraphs) (world s) = (Crashed exc, w) ->
         populate_document docs_service document_id paragraphs s =
         (Raise (Uncaught exc),
          {| world := w;
             calls := calls s ++
                      [batchUpdate_call document_id (build_requests paragraphs)] |}))
  /\ (forall markdown_text title s paragraphs exc w,
         parse_markdown uni_alnum uni_lower markdown_text = Ok paragraphs ->
         documents_create docs_service title (world s) = (Crashed exc, w) ->
         convert_notes_to_doc docs_service uni_alnum uni_lower markdown_text title s =
         (Raise (Uncaught exc),
          {| world := w; calls := calls s ++ [create_call title] |}))
  /\ (forall markdown_text title s paragraphs document document_id w exc w',
         parse_markdown uni_alnum uni_lower markdown_text = Ok paragraphs ->
         documents_create docs_service title (world s) = (Returned document, w) ->
         documentId document = Some document_id ->
         documents_batchUpdate docs_service document_id
           (build_requests paragraphs) w = (Crashed exc, w') ->
         convert_notes_to_doc docs_service uni_alnum uni_lower markdown_text title s =
         (Raise (Uncaught exc),
          {| world := w';
             calls := calls s ++
                      [create_call title;
                       batchUpdate_call document_id (build_requests paragraphs)] |})).
Proof.
  assert (Hcreated : forall title s document document_id w,
      documents_create docs_service title (world s) = (Returned document, w) ->
      documentId document = Some document_id ->
      create_document docs_service title s =
      (Ok document_id, {| world := w; calls := calls s ++ [create_call title] |})).
  { intros title s document document_id w H Hid.
    unfold create_document. now rewrite H, Hid. }
  repeat split.
  - intros title s exc w H. unfold create_document. now rewrite H.
  - intros document_id paragraphs s exc w H. unfold populate_document. now rewrite H.
  - intros markdown_text title s paragraphs exc w Hparse H.
    unfold convert_notes_to_doc, create_document. now rewrite Hparse, H.
  - intros markdown_text title s paragraphs document document_id w exc w' Hparse Hc Hid Hu.
    unfold convert_notes_to_doc. rewrite Hparse, (Hcreated _ _ _ _ _ Hc Hid).
    unfold populate_document. cbn [world calls]. rewrite Hu.
    now rewrite <- app_assoc.
  - intros title s exc w H. unfold create_document. now rewrite H.
  - intros document_id paragraphs s exc w H. unfold populate_document. now rewrite H.
  - intros markdown_text title s paragraphs exc w Hparse H.
    unfold convert_notes_to_doc, create_document. now rewrite Hparse, H.
  - intros markdown_text title s paragraphs document document_id w exc w' Hparse Hc Hid Hu.
    unfold convert_notes_to_doc. rewrite Hparse, (Hcreated _ _ _ _ _ Hc Hid).
    unfold populate_document. cbn [world calls]. rewrite Hu.
    now rewrite <- app_assoc.
Qed.

(** ** The matcher *)

Lemma first_down_top {A} (f : nat -> option A) (lo n : nat) (a : A) :
  f (lo + n) = Some a -> first_down f lo n = Some a.
Proof. intros H. destruct n; simpl; now rewrite H. Qed.

Lemma first_down_none {A} (f : nat -> option A) (lo : nat) :
  forall n, (forall k, lo <= k <= lo + n -> f k = None) -> first_down f lo n = None.
Proof.
  induction n as [|n IH]; intros H; simpl.
  - now rewrite H by lia.
  - rewrite H by lia. apply IH. intros k Hk. apply H. lia.
Qed.

Lemma first_down_some {A} (f : nat -> option A) (lo : nat) (a : A) :
  forall n, first_down f lo n = Some a -> exists k, lo <= k <= lo + n /\ f k = Some a.
Proof.
  induction n as [|n IH]; simpl; intros H.
  - destruct (f (lo + 0)) eqn:E; [|discriminate].
    exists (lo + 0). split; [lia|congruence].
  - destruct (f (lo + S n)) eqn:E.
    + exists (lo + S n). split; [lia|congruence].
    + destruct (IH H) as [k [Hk Hf]]. exists k. split; [lia|exact Hf].
Qed.

Lemma re_match_cons (p : piece) (pat : pattern) (s : pystr) :
  re_match (p :: pat) s =
  let hi := match p_max p with
            | Some m => Nat.min m (run_length (p_class p) s)
            | None => run_length (p_class p) s
            end in
  if hi <? p_min p then None
  else
    first_down
      (fun k =>
         match re_match pat (skipn k s) with
         | Some (n, groups) =>
             Some (k + n, if p_group p then firstn k s :: groups else groups)
         | None => None
         end)
      (p_min p) (hi - p_min p).
Proof. reflexivity. Qed.

(** The greedy choice is taken when the rest of the pattern accepts it. *)
Lemma re_match_greedy (p : piece) (pat : pattern) (s : pystr)
  (n : nat) (groups : list pystr) :
  let avail := run_length (p_class p) s in
  let hi := match p_max p with Some m => Nat.min m avail | None => avail end in
  p_min p <= hi ->
  re_match pat (skipn hi s) = Some (n, groups) ->
  re_match (p :: pat) s =
  Some (hi + n, if p_group p then firstn hi s :: groups else groups).
Proof.
  cbv zeta. intros Hle Hrest. cbn [re_match].
  destruct (Nat.ltb_spec
              (match p_max p with
               | Some m => Nat.min m (run_length (p_class p) s)
               | None => run_length (p_class p) s
               end) (p_min p)) as [Hlt|_]; [lia|].
  apply first_down_top.
  replace (p_min p + _) with
    (match p_max p with
     | Some m => Nat.min m (run_length (p_class p) s)
     | None => run_length (p_class p) s
     end) by lia.
  now rewrite Hrest.
Qed.

(** [groups()] has one item for each capturing group of the pattern. *)
Lemma re_match_groups (pat : pattern) :
  forall s n groups,
    re_match pat s = Some (n, groups) ->
    List.length groups = List.length (filter p_group pat).
Proof.
  induction pat as [|p pat IH]; intros s n groups H.
  - simpl in H. now injection H as <- <-.
  - cbn [re_match] in H.
    destruct (_ <? _); [discriminate|].
    apply first_down_some in H. destruct H as [k [_ H]].
    destruct (re_match pat (skipn k s)) as [[n' groups']|] eqn:E; [|discriminate].
    injection H as <- <-. apply IH in E. cbn [filter].
    destruct (p_group p); simpl; now rewrite E.
Qed.

Lemma run_length_le (f : char -> bool) (s : pystr) : run_length f s <= List.length s.
Proof. induction s as [|c s IH]; simpl; [lia|]. destruct (f c); simpl; lia. Qed.

Lemma run_length_all (f : char -> bool) (s : pystr) :
  forall i, i < run_length f s -> exists c, nth_error s i = Some c /\ f c = true.
Proof.
  induction s as [|c s IH]; simpl; intros i Hi; [lia|].
  destruct (f c) eqn:E; [|lia].
  destruct i as [|i]; simpl; [now exists c|]. apply IH. lia.
Qed.

Lemma run_length_stop (f : char -> bool) (s : pystr) (c : char) :
  nth_error s (run_length f s) = Some c -> f c = false.
Proof.
  induction s as [|d s IH]; simpl; [discriminate|].
  destruct (f d) eqn:E; simpl; [exact IH|]. intros H. congruence.
Qed.

Lemma run_length_ge (f : char -> bool) (s : pystr) :
  forall k,
    (forall i, i < k -> exists c, nth_error s i = Some c /\ f c = true) ->
    k <= run_length f s.
Proof.
  induction s as [|d s IH]; intros k H.
  - destruct k; [lia|]. destruct (H 0) as [c [Hc _]]; [lia|discriminate].
  - destruct k as [|k]; [lia|]. simpl.
    destruct (H 0) as [c [Hc Hf]]; [lia|]. simpl in Hc. injection Hc as ->.
    rewrite Hf. apply le_n_S, IH. intros i Hi.
    destruct (H (S i)) as [c' Hc']; [lia|]. now exists c'.
Qed.

(** ** The parser *)

Section ParserFacts.

Variable uni_alnum : char -> bool.
Variable uni_lower : pystr -> pystr.

Local Abbreviation parse_line := (parse_line uni_alnum uni_lower).
Local Abbreviation parse_lines := (parse_lines uni_alnum uni_lower).
Local Abbreviation parse_markdown := (parse_markdown uni_alnum uni_lower).
Local Abbreviation _extract_mentions := (_extract_mentions uni_alnum).
Local Abbreviation line_paragraph := (line_paragraph uni_alnum uni_lower).
Local Abbreviation paragraph_of_line := (paragraph_of_line uni_alnum uni_lower).

Lemma heading_groups (s : pystr) (n : nat) (groups : list pystr) :
  re_match HEADING_PATTERN s = Some (n, groups) ->
  exists hashes title, groups = [hashes; title].
Proof.
  intros H. apply re_match_groups in H. simpl in H.
  destruct groups as [|a [|b [|c groups]]]; try discriminate.
  now exists a, b.
Qed.

Lemma bullet_groups (s : pystr) (n : nat) (groups : list pystr) :
  re_match BULLET_PATTERN s = Some (n, groups) ->
  exists indent marker remainder, groups = [indent; marker; remainder].
Proof.
  intros H. apply re_match_groups in H. simpl in H.
  destruct groups as [|a [|b [|c [|d groups]]]]; try discriminate.
  now exists a, b, c.
Qed.

(** One line never raises; when it gives a paragraph, the paragraph is of
    one of the three kinds, built from the line without its final spaces. *)
Lemma parse_line_ok (raw_line : pystr) :
  exists appended,
    parse_line raw_line = Ok appended /\
    match appended with
    | Some paragraph =>
        rstrip raw_line <> [] /\
        str_eqb (strip (rstrip raw_line)) (py "---") = false /\
        line_paragraph (rstrip raw_line) paragraph
    | None =>
        rstrip raw_line = [] \/
        str_eqb (strip (rstrip raw_line)) (py "---") = true
    end.
Proof.
  unfold parse_line.
  destruct (rstrip raw_line) as [|c line] eqn:Hline.
  - exists None. split; [reflexivity|now left].
  - destruct (str_eqb (strip (c :: line)) (py "---")) eqn:Hrule.
    + exists None. split; [reflexivity|now right].
    + destruct (re_match HEADING_PATTERN (c :: line)) as [[n groups]|] eqn:Hh.
      * destruct (heading_groups _ Hh) as [hashes [title ->]].
        eexists (Some _). split; [reflexivity|].
        split; [discriminate|]. split; [reflexivity|].
        eapply heading_paragraph; eassumption.
      * destruct (re_match BULLET_PATTERN (c :: line)) as [[n groups]|] eqn:Hb.
        -- destruct (bullet_groups _ Hb) as [indent [marker [remainder ->]]].
           set (checked := startswith remainder (py "[ ]")).
           set (clean_text :=
                  strip (if checked then strip (skipn 3 remainder) else remainder)).
           exists (Some {| text := clean_text;
                           named_style := NORMAL_TEXT;
                           bullet := true; checkbox := checked;
                           indent_level := len indent / 2;
                           is_footer := false;
                           mention_spans := _extract_mentions clean_text |}).
           split.
           ++ cbn [unpack3 bind]. subst clean_text checked.
              destruct (startswith remainder (py "[ ]")); reflexivity.
           ++ split; [discriminate|]. split; [reflexivity|].
              eapply bullet_paragraph; eassumption.
        -- eexists (Some _). split; [reflexivity|].
           split; [discriminate|]. split; [reflexivity|].
           now apply plain_paragraph.
Qed.

Lemma parse_lines_ok (lines : list pystr) :
  forall paragraphs,
    parse_lines paragraphs lines =
    Ok (paragraphs ++ flat_map paragraph_of_line lines).
Proof.
  induction lines as [|raw_line lines IH]; intros paragraphs.
  - simpl. now rewrite app_nil_r.
  - cbn [parse_lines flat_map]. unfold paragraph_of_line at 1.
    destruct (parse_line_ok raw_line) as [appended [-> _]]. cbn [bind].
    rewrite IH. destruct appended; [now rewrite <- app_assoc|reflexivity].
Qed.

Lemma parse_markdown_ok (markdown_text : pystr) :
  parse_markdown markdown_text =
  Ok (flat_map paragraph_of_line (splitlines markdown_text)).
Proof. unfold parse_markdown. now rewrite parse_lines_ok. Qed.

(** Every paragraph of the result is the paragraph of a line. *)
Lemma parse_markdown_paragraph (markdown_text : pystr) (paragraph : ParagraphSpec) :
  In paragraph (flat_map paragraph_of_line (splitlines markdown_text)) ->
  exists line, line_paragraph line paragraph.
Proof.
  intros H. apply in_flat_map in H. destruct H as [raw_line [_ H]].
  unfold paragraph_of_line in H.
  destruct (parse_line_ok raw_line) as [appended [E P]]. rewrite E in H.
  destruct appended as [p|]; [|contradiction].
  destruct H as [<-|[]]. exists (rstrip raw_line). apply P.
Qed.

(** C2: [parse_markdown] returns a list of paragraphs for every text: no
    step of it raises, the unpacking of the groups of a match included. *)
Theorem parse_markdown_total (markdown_text : pystr) :
  exists paragraphs, parse_markdown markdown_text = Ok paragraphs.
Proof.
  exists (flat_map paragraph_of_line (splitlines markdown_text)).
  apply parse_markdown_ok.
Qed.

(** C10: in the result of [parse_markdown] a paragraph with a checkbox is a
    bullet; a heading has no checkbox, and neither has a paragraph that is
    not a bullet. *)
Theorem checkbox_implies_bullet (markdown_text : pystr) :
  exists paragraphs,
    parse_markdown markdown_text = Ok paragraphs /\
    Forall (fun p =>
              (checkbox p = true -> bullet p = true)
              /\ (named_style p <> NORMAL_TEXT -> checkbox p = false)
              /\ (bullet p = false -> checkbox p = false))
           paragraphs.
Proof.
  exists (flat_map paragraph_of_line (splitlines markdown_text)).
  split; [apply parse_markdown_ok|].
  apply Forall_forall. intros p Hp.
  destruct (parse_markdown_paragraph _ _ Hp) as [line Hline].
  destruct Hline; cbn [checkbox bullet named_style];
    repeat split; congruence.
Qed.

End ParserFacts.

(** ** Stripping and splitting *)

Lemma startswith_app (prefix rest : pystr) : startswith (prefix ++ rest) prefix = true.
Proof.
  induction prefix as [|c prefix IH]; [now destruct rest|].
  cbn [app startswith]. now rewrite N.eqb_refl, IH.
Qed.

Lemma drop_while_nil (f : char -> bool) (s : pystr) :
  drop_while f s = [] <-> forallb f s = true.
Proof.
  induction s as [|c s IH]; simpl; [tauto|].
  destruct (f c); simpl; [exact IH|]. split; discriminate.
Qed.

Lemma drop_while_snoc (f : char -> bool) (c : char) (s : pystr) :
  drop_while f (s ++ [c]) =
  match drop_while f s with
  | [] => if f c then [] else [c]
  | d :: s' => (d :: s') ++ [c]
  end.
Proof.
  induction s as [|d s IH]; simpl; [reflexivity|].
  destruct (f d); [exact IH|reflexivity].
Qed.

Lemma rstrip_cons (c : char) (s : pystr) :
  rstrip (c :: s) =
  match rstrip s with
  | [] => if is_space c then [] else [c]
  | d :: s' => c :: d :: s'
  end.
Proof.
  unfold rstrip. cbn [rev]. rewrite drop_while_snoc.
  destruct (drop_while is_space (rev s)) as [|d s'] eqn:E.
  - simpl. destruct (is_space c); reflexivity.
  - rewrite rev_app_distr. cbn [rev app].
    destruct (rev s' ++ [d]) eqn:E'; [|reflexivity].
    apply app_eq_nil in E'. destruct E'; discriminate.
Qed.

Lemma rstrip_cons_visible (c : char) (s : pystr) :
  is_space c = false -> rstrip (c :: s) = c :: rstrip s.
Proof. intros H. rewrite rstrip_cons, H. now destruct (rstrip s). Qed.

Lemma rstrip_nil (s : pystr) : rstrip s = [] <-> forallb is_space s = true.
Proof.
  induction s as [|c s IH]; [simpl; tauto|].
  rewrite rstrip_cons. cbn [forallb].
  destruct (rstrip s) as [|d s'] eqn:E.
  - destruct (is_space c); simpl; [|split; discriminate].
    destruct IH as [IH _]. rewrite IH by reflexivity. tauto.
  - split; [discriminate|]. intros H. apply andb_true_iff in H.
    destruct H as [_ H]. apply IH in H. discriminate.
Qed.

Lemma rstrip_app (a b : pystr) : rstrip b <> [] -> rstrip (a ++ b) = a ++ rstrip b.
Proof.
  intros Hb. induction a as [|c a IH]; [reflexivity|].
  cbn [app]. rewrite rstrip_cons, IH.
  destruct (a ++ rstrip b) eqn:E; [|reflexivity].
  apply app_eq_nil in E. tauto.
Qed.

Lemma rstrip_idempotent (s : pystr) : rstrip (rstrip s) = rstrip s.
Proof.
  induction s as [|c s IH]; [reflexivity|].
  rewrite rstrip_cons. destruct (rstrip s) as [|d s'] eqn:E.
  - destruct (is_space c) eqn:Hc; [reflexivity|].
    now rewrite rstrip_cons_visible.
  - rewrite rstrip_cons, IH. reflexivity.
Qed.

Lemma lstrip_rstrip (s : pystr) : lstrip (rstrip s) = rstrip (lstrip s).
Proof.
  induction s as [|c s IH]; [reflexivity|].
  unfold lstrip in *. cbn [drop_while].
  destruct (is_space c) eqn:Hc.
  - rewrite rstrip_cons, Hc, <- IH.
    destruct (rstrip s) as [|d s']; [reflexivity|].
    cbn [drop_while]. now rewrite Hc.
  - rewrite rstrip_cons_visible by exact Hc. cbn [drop_while]. now rewrite Hc.
Qed.

Lemma lstrip_idempotent (s : pystr) : lstrip (lstrip s) = lstrip s.
Proof.
  unfold lstrip. induction s as [|c s IH]; [reflexivity|].
  cbn [drop_while]. destruct (is_space c) eqn:Hc; [exact IH|].
  cbn [drop_while]. now rewrite Hc.
Qed.

(** Stripping what is left of a right-stripped text strips the text. *)
Lemma strip_lstrip_rstrip (s : pystr) : strip (lstrip (rstrip s)) = strip s.
Proof.
  unfold strip. now rewrite lstrip_idempotent, lstrip_rstrip, rstrip_idempotent.
Qed.

Lemma skipn_run_length (f : char -> bool) (s : pystr) :
  skipn (run_length f s) s = drop_while f s.
Proof.
  induction s as [|c s IH]; [reflexivity|].
  simpl. destruct (f c); [exact IH|reflexivity].
Qed.

(** A text without line boundaries is one line. *)
Lemma splitlines_from_one (s : pystr) :
  forall cur,
    Forall (fun c => is_linebreak c = false) s ->
    splitlines_from cur s = match cur ++ s with [] => [] | _ => [cur ++ s] end.
Proof.
  induction s as [|c s IH]; intros cur H.
  - simpl. rewrite app_nil_r. now destruct cur.
  - inversion H as [|? ? Hc Hs]; subst. cbn [splitlines_from]. rewrite Hc.
    rewrite IH by exact Hs. now rewrite <- app_assoc.
Qed.

Lemma dot_of_line (c : char) : is_linebreak c = false -> dot c = true.
Proof.
  unfold dot. destruct (N.eqb_spec c 10) as [->|]; [discriminate|reflexivity].
Qed.

(** ** Headings *)

Lemma re_match_between (f : char -> bool) (lo hi : nat) (g : bool)
  (pat : pattern) (s : pystr) (n : nat) (groups : list pystr) :
  lo <= Nat.min hi (run_length f s) ->
  re_match pat (skipn (Nat.min hi (run_length f s)) s) = Some (n, groups) ->
  re_match (between f lo hi g :: pat) s =
  Some (Nat.min hi (run_length f s) + n,
        if g then firstn (Nat.min hi (run_length f s)) s :: groups else groups).
Proof. intros Hle H. now apply (re_match_greedy (between f lo hi g) pat s). Qed.

Lemma re_match_plus (f : char -> bool) (g : bool)
  (pat : pattern) (s : pystr) (n : nat) (groups : list pystr) :
  1 <= run_length f s ->
  re_match pat (drop_while f s) = Some (n, groups) ->
  re_match (plus f g :: pat) s =
  Some (run_length f s + n,
        if g then firstn (run_length f s) s :: groups else groups).
Proof.
  intros Hle H. apply (re_match_greedy (plus f g) pat s); [exact Hle|].
  cbn [p_max p_class plus]. now rewrite skipn_run_length.
Qed.

Lemma re_match_star (f : char -> bool) (g : bool)
  (pat : pattern) (s : pystr) (n : nat) (groups : list pystr) :
  re_match pat (drop_while f s) = Some (n, groups) ->
  re_match (star f g :: pat) s =
  Some (run_length f s + n,
        if g then firstn (run_length f s) s :: groups else groups).
Proof.
  intros H. apply (re_match_greedy (star f g) pat s); [cbn; lia|].
  cbn [p_max p_class star]. now rewrite skipn_run_length.
Qed.

(** An item that needs a character of its class fails where there is none. *)
Lemma re_match_needs_one (p : piece) (pat : pattern) (s : pystr) :
  1 <= p_min p -> run_length (p_class p) s = 0 -> re_match (p :: pat) s = None.
Proof.
  intros Hmin Hrun. cbn [re_match]. rewrite Hrun.
  destruct (p_max p) as [m|]; [rewrite Nat.min_0_r|];
    destruct (Nat.ltb_spec 0 (p_min p)); (reflexivity || lia).
Qed.

Lemma run_length_repeat (f : char -> bool) (c : char) (k : nat) (rest : pystr) :
  f c = true -> run_length f (repeat c k ++ rest) = k + run_length f rest.
Proof. intros H. induction k as [|k IH]; simpl; [reflexivity|]. now rewrite H, IH. Qed.

Lemma skipn_repeat (c : char) (k j : nat) (rest : pystr) :
  j <= k -> skipn j (repeat c k ++ rest) = repeat c (k - j) ++ rest.
Proof.
  revert j. induction k as [|k IH]; intros j Hj.
  - now replace j with 0 by lia.
  - destruct j as [|j]; [reflexivity|]. simpl. apply IH. lia.
Qed.

Lemma firstn_repeat (c : char) (k : nat) (rest : pystr) :
  firstn k (repeat c k ++ rest) = repeat c k.
Proof. induction k as [|k IH]; simpl; [reflexivity|]. now rewrite IH. Qed.

Lemma len_repeat (c : char) (k : nat) : len (repeat c k) = Z.of_nat k.
Proof. unfold len. now rewrite repeat_length. Qed.

Lemma drop_while_incl (f : char -> bool) (s : pystr) (c : char) :
  In c (drop_while f s) -> In c s.
Proof.
  induction s as [|d s IH]; simpl; [tauto|].
  destruct (f d); [intros H; right; auto|tauto].
Qed.

Lemma rstrip_incl (s : pystr) (c : char) : In c (rstrip s) -> In c s.
Proof.
  unfold rstrip. intros H. apply in_rev in H. apply drop_while_incl in H.
  now apply in_rev.
Qed.

Lemma run_length_whole (f : char -> bool) (s : pystr) :
  (forall c, In c s -> f c = true) -> run_length f s = List.length s.
Proof.
  induction s as [|c s IH]; intros H; simpl; [reflexivity|].
  rewrite (H c) by now left. rewrite IH; [reflexivity|].
  intros d Hd. apply H. now right.
Qed.

Lemma drop_while_whole (f : char -> bool) (s : pystr) :
  (forall c, In c s -> f c = true) -> drop_while f s = [].
Proof.
  intros H. apply drop_while_nil. apply forallb_forall. exact H.
Qed.

(** One to six [#], spaces, and a text on one line: the heading pattern
    matches, with the [#] and the text from its first visible character
    as groups. *)
Lemma heading_match (k m : nat) (t : pystr) :
  1 <= k <= 6 -> 1 <= m ->
  (forall c, In c t -> is_linebreak c = false) ->
  exists n,
    re_match HEADING_PATTERN (repeat HASH k ++ repeat SPACE m ++ t) =
    Some (n, [repeat HASH k; lstrip t]).
Proof.
  intros Hk Hm Hline. unfold HEADING_PATTERN.
  assert (Hrun : run_length (is_char "#") (repeat HASH k ++ repeat SPACE m ++ t) = k).
  { rewrite run_length_repeat by reflexivity.
    destruct m as [|m]; [lia|]. simpl. lia. }
  assert (Hmin : Nat.min 6 k = k) by lia.
  eexists. erewrite re_match_between; rewrite Hrun, Hmin.
  - rewrite firstn_repeat. reflexivity.
  - lia.
  - rewrite skipn_repeat, Nat.sub_diag by lia. cbn [repeat app].
    erewrite re_match_plus.
    + reflexivity.
    + rewrite run_length_repeat by reflexivity. lia.
    + replace (drop_while is_space (repeat SPACE m ++ t)) with (lstrip t).
      2:{ rewrite <- skipn_run_length, run_length_repeat by reflexivity.
          rewrite <- (repeat_length SPACE m) at 1.
          rewrite skipn_app, skipn_all2, repeat_length by (rewrite repeat_length; lia).
          replace (m + run_length is_space t - m) with (run_length is_space t) by lia.
          cbn [app]. now rewrite skipn_run_length. }
      erewrite re_match_star.
      * rewrite run_length_whole, firstn_all.
        -- reflexivity.
        -- intros c Hc. apply dot_of_line, Hline.
           unfold lstrip in Hc. now apply drop_while_incl in Hc.
      * rewrite drop_while_whole; [reflexivity|].
        intros c Hc. apply dot_of_line, Hline.
        unfold lstrip in Hc. now apply drop_while_incl in Hc.
Qed.

(** Seven [#] or more: neither pattern matches. *)
Lemma heading_no_match (k : nat) (rest : pystr) :
  7 <= k -> re_match HEADING_PATTERN (repeat HASH k ++ rest) = None.
Proof.
  intros Hk. unfold HEADING_PATTERN. rewrite re_match_cons.
  cbn [between p_class p_min p_max p_group]. cbv zeta.
  rewrite run_length_repeat by reflexivity.
  destruct (Nat.ltb_spec (Nat.min 6 (k + run_length (is_char "#") rest)) 1); [lia|].
  apply first_down_none. intros j Hj.
  rewrite skipn_repeat by lia.
  destruct (k - j) as [|d] eqn:E; [lia|]. cbn [repeat app].
  rewrite re_match_needs_one; [reflexivity|cbn; lia|reflexivity].
Qed.

Lemma bullet_no_match (rest : pystr) :
  re_match BULLET_PATTERN (HASH :: rest) = None.
Proof. reflexivity. Qed.

Section HeadingFacts.

Variable uni_alnum : char -> bool.
Variable uni_lower : pystr -> pystr.

Local Abbreviation parse_line := (parse_line uni_alnum uni_lower).
Local Abbreviation parse_markdown := (parse_markdown uni_alnum uni_lower).

(** A text of one line is parsed as that line. *)
Lemma parse_markdown_one_line (line : pystr) :
  line <> [] ->
  Forall (fun c => is_linebreak c = false) line ->
  parse_markdown line =
  match parse_line line with
  | Ok (Some paragraph) => Ok [paragraph]
  | Ok None => Ok []
  | Raise e => Raise e
  end.
Proof.
  intros Hne Hline. unfold parse_markdown, splitlines.
  rewrite splitlines_from_one by exact Hline. cbn [app].
  destruct line as [|c line]; [contradiction|].
  cbn [parse_lines]. destruct (parse_line (c :: line)) as [[p|]|e]; reflexivity.
Qed.

Lemma heading_line_shape (k m : nat) (title : pystr) :
  1 <= k -> 1 <= m ->
  forallb is_space title = false ->
  Forall (fun c => is_linebreak c = false) title ->
  let line := repeat HASH k ++ repeat SPACE m ++ title in
  line <> []
  /\ Forall (fun c => is_linebreak c = false) line
  /\ rstrip line = HASH :: repeat HASH (k - 1) ++ repeat SPACE m ++ rstrip title
  /\ str_eqb (strip (rstrip line)) (py "---") = false.
Proof.
  intros Hk Hm Hvis Hline. cbv zeta.
  assert (Hr : rstrip title <> []).
  { intros E. apply rstrip_nil in E. congruence. }
  assert (Hrs : rstrip (repeat HASH k ++ repeat SPACE m ++ title) =
                HASH :: repeat HASH (k - 1) ++ repeat SPACE m ++ rstrip title).
  { rewrite app_assoc, rstrip_app, <- app_assoc by exact Hr.
    destruct k as [|k]; [lia|]. cbn [repeat app].
    now replace (S k - 1) with k by lia. }
  repeat split.
  - destruct k; [lia|discriminate].
  - apply Forall_app; split; [|apply Forall_app; split; [|exact Hline]];
      apply Forall_forall; intros c Hc; apply repeat_spec in Hc; now subst.
  - exact Hrs.
  - rewrite Hrs. unfold strip, lstrip. cbn [drop_while].
    change (is_space HASH) with false. cbv iota.
    now rewrite !rstrip_cons_visible.
Qed.

(** C1, as the code has it: a line of one to six [#], one or more spaces
    and a title is parsed as one heading paragraph whose text is the
    stripped title and whose level is the number of [#], at most 3; with
    seven [#] or more the line is not a heading: it is parsed as one plain
    paragraph of style NORMAL_TEXT whose text is the line itself. *)
Theorem heading_level_clamped (k m : nat) (title : pystr) :
  1 <= m ->
  forallb is_space title = false ->
  Forall (fun c => is_linebreak c = false) title ->
  let line := repeat HASH k ++ repeat SPACE m ++ title in
  (1 <= k <= 6 ->
   parse_markdown line =
   Ok [{| text := strip title;
          named_style := match k with
                         | 1 => py "HEADING_1"
                         | 2 => py "HEADING_2"
                         | _ => py "HEADING_3"
                         end;
          bullet := false; checkbox := false; indent_level := 0;
          is_footer := false; mention_spans := [] |}])
  /\ (7 <= k ->
      exists paragraph,
        parse_markdown line = Ok [paragraph]
        /\ text paragraph = rstrip line
        /\ named_style paragraph = NORMAL_TEXT
        /\ bullet paragraph = false
        /\ checkbox paragraph = false).
Proof.
  intros Hm Hvis Hline. cbv zeta. split; intros Hk.
  - destruct (@heading_line_shape k m title) as [Hne [Hone [Hrs Hrule]]];
      [lia|assumption..|].
    rewrite parse_markdown_one_line by assumption.
    unfold parse_line. rewrite Hrule, Hrs.
    assert (Hmatch : exists n,
      re_match HEADING_PATTERN
        (HASH :: repeat HASH (k - 1) ++ repeat SPACE m ++ rstrip title) =
      Some (n, [repeat HASH k; lstrip (rstrip title)])).
    { replace (HASH :: repeat HASH (k - 1) ++ repeat SPACE m ++ rstrip title)
        with (repeat HASH k ++ repeat SPACE m ++ rstrip title)
        by (destruct k as [|k']; [lia|cbn [repeat app];
            now replace (S k' - 1) with k' by lia]).
      apply heading_match; [lia|lia|].
      intros c Hc. apply rstrip_incl in Hc.
      rewrite Forall_forall in Hline. now apply Hline. }
    destruct Hmatch as [n ->]. cbn [unpack2 bind].
    rewrite strip_lstrip_rstrip, len_repeat.
    do 7 (destruct k as [|k]; [first [lia|reflexivity]|]). lia.
  - destruct (@heading_line_shape k m title) as [Hne [Hone [Hrs Hrule]]];
      [lia|assumption..|].
    rewrite parse_markdown_one_line by assumption.
    unfold parse_line. rewrite Hrule, Hrs.
    assert (Hnone :
      re_match HEADING_PATTERN
        (HASH :: repeat HASH (k - 1) ++ repeat SPACE m ++ rstrip title) = None).
    { replace (HASH :: repeat HASH (k - 1) ++ repeat SPACE m ++ rstrip title)
        with (repeat HASH k ++ repeat SPACE m ++ rstrip title)
        by (destruct k as [|k']; [lia|cbn [repeat app];
              now replace (S k' - 1) with k' by lia]).
      now apply heading_no_match. }
    rewrite Hnone, bullet_no_match.
    eexists. split; [reflexivity|]. cbn [text named_style bullet checkbox].
    repeat split.
Qed.

(** C3: the line [- [ ] Buy milk @alice] is parsed as one paragraph, a
    bullet with a checkbox, whose text is [Buy milk @alice] and whose only
    mention is at offsets 9 to 15. *)
Theorem parse_checkbox_bullet :
  parse_markdown (py "- [ ] Buy milk @alice") =
  Ok [{| text := py "Buy milk @alice";
         named_style := NORMAL_TEXT;
         bullet := true; checkbox := true; indent_level := 0;
         is_footer := false;
         mention_spans := [(9, 15)%Z] |}].
Proof. vm_compute. reflexivity. Qed.

End HeadingFacts.

(** ** Mentions *)

Section MentionFacts.

Variable uni_alnum : char -> bool.

Local Abbreviation is_word := (is_word uni_alnum).
Local Abbreviation MENTION_PATTERN := (MENTION_PATTERN uni_alnum).
Local Abbreviation _extract_mentions := (_extract_mentions uni_alnum).
Local Abbreviation run_at := (run_at uni_alnum).

Lemma is_word_at : is_word AT = false.
Proof. reflexivity. Qed.

Lemma is_char_at (c : char) : is_char "@" c = true <-> c = AT.
Proof. unfold is_char. apply N.eqb_eq. Qed.

Lemma re_match_plus_last (f : char -> bool) (r : pystr) :
  re_match [plus f false] r =
  if 1 <=? run_length f r then Some (run_length f r, []) else None.
Proof.
  destruct (Nat.leb_spec 1 (run_length f r)) as [Hw|Hw].
  - erewrite re_match_plus; [|exact Hw|reflexivity].
    now rewrite Nat.add_0_r.
  - apply re_match_needs_one; [cbn; lia|]. cbn [plus p_class]. lia.
Qed.

(** The pattern at the start of [s]: an at sign and its whole run of [\w]. *)
Lemma re_match_mention (s : pystr) :
  re_match MENTION_PATTERN s =
  match s with
  | c :: r =>
      if is_char "@" c && (1 <=? run_length is_word r)
      then Some (S (run_length is_word r), [])
      else None
  | [] => None
  end.
Proof.
  destruct s as [|c r]; [reflexivity|].
  unfold MENTION_PATTERN. rewrite re_match_cons.
  cbn [one p_max p_min p_class p_group run_length]. cbv zeta.
  destruct (is_char "@" c) eqn:Hc; [|reflexivity].
  change (Nat.min 1 (S (run_length (is_char "@") r))) with 1.
  change (1 <? 1) with false. cbv iota. change (1 - 1) with 0.
  cbn [first_down]. change (1 + 0) with 1. cbn [skipn andb].
  rewrite re_match_plus_last.
  destruct (1 <=? run_length is_word r); reflexivity.
Qed.

(** Passing the characters of a match is resuming after them. *)
Lemma finditer_skip (pat : pattern) :
  forall k pos s,
    k <= List.length s ->
    finditer_from pat k pos s = finditer_from pat 0 (pos + k) (skipn k s).
Proof.
  induction k as [|k IH]; intros pos s Hk.
  - now rewrite Nat.add_0_r.
  - destruct s as [|c s]; [simpl in Hk; lia|].
    cbn [finditer_from skipn]. rewrite IH by (simpl in Hk; lia).
    f_equal. lia.
Qed.

Lemma finditer_mention_cons (pos : nat) (c : char) (r : pystr) :
  finditer_from MENTION_PATTERN 0 pos (c :: r) =
  if is_char "@" c && (1 <=? run_length is_word r)
  then (pos, pos + S (run_length is_word r)) ::
       finditer_from MENTION_PATTERN 0 (pos + S (run_length is_word r))
         (skipn (run_length is_word r) r)
  else finditer_from MENTION_PATTERN 0 (S pos) r.
Proof.
  cbn [finditer_from]. rewrite re_match_mention.
  destruct (is_char "@" c && (1 <=? run_length is_word r)); [|reflexivity].
  cbn [Nat.pred]. rewrite finditer_skip by apply run_length_le.
  do 2 f_equal. lia.
Qed.

Lemma run_at_skipn (k : nat) (s : pystr) (a b : nat) :
  k <= a -> (run_at s a b <-> run_at (skipn k s) (a - k) (b - k)).
Proof.
  intros Hk. unfold run_at. rewrite length_skipn, !nth_error_skipn.
  replace (k + (a - k)) with a by lia.
  split; intros (Hat & Hlt & Hlen & Hin & Hend).
  - repeat split; try lia; try assumption.
    + intros i Hi. rewrite nth_error_skipn. apply Hin. lia.
    + intros c. replace (k + (b - k)) with b by lia. apply Hend.
  - repeat split; try lia; try assumption.
    + intros i Hi. specialize (Hin (i - k)). rewrite nth_error_skipn in Hin.
      replace (k + (i - k)) with i in Hin by lia. apply Hin. lia.
    + intros c. replace (k + (b - k)) with b in Hend by lia. apply Hend.
Qed.

(** A run that starts at the head of [c :: r] takes the whole run of [\w]
    of [r]. *)
Lemma run_at_head (c : char) (r : pystr) (b : nat) :
  run_at (c :: r) 0 b <->
  c = AT /\ 1 <= run_length is_word r /\ b = S (run_length is_word r).
Proof.
  unfold run_at. split.
  - intros (Hat & Hlt & Hlen & Hin & Hend). simpl in Hat.
    injection Hat as ->. destruct b as [|b]; [lia|].
    assert (Hge : b <= run_length is_word r).
    { apply run_length_ge. intros i Hi.
      destruct (Hin (S i)) as [d Hd]; [lia|]. now exists d. }
    assert (Hle : run_length is_word r <= b).
    { destruct (Nat.le_gt_cases (run_length is_word r) b) as [|Hgt]; [assumption|].
      destruct (run_length_all is_word r Hgt) as [d [Hd Hw]].
      rewrite (Hend d) in Hw by exact Hd. discriminate. }
    repeat split; lia.
  - intros (-> & Hrun & ->). repeat split.
    + lia.
    + pose proof (run_length_le is_word r). simpl. lia.
    + intros i Hi. destruct i as [|i]; [lia|]. simpl.
      apply run_length_all. lia.
    + intros d. simpl. apply run_length_stop.
Qed.

(** The matches found from offset [pos] on are the runs of the text. *)
Lemma finditer_mention_spec :
  forall n s,
    List.length s <= n ->
    forall pos a b,
      In (a, b) (finditer_from MENTION_PATTERN 0 pos s) <->
      pos <= a /\ run_at s (a - pos) (b - pos).
Proof.
  induction n as [|n IH]; intros s Hn pos a b;
    (destruct s as [|c r];
     [cbn [finditer_from]; rewrite re_match_mention; split;
      [intros []|intros [_ (Hat & _)]; now destruct (a - pos)]|]);
    [simpl in Hn; lia|].
  assert (Hr : List.length r <= n) by (simpl in Hn; lia).
  rewrite finditer_mention_cons.
  set (w := run_length is_word r).
  assert (Hshift : forall k, k <= a - pos ->
            (run_at (c :: r) (a - pos) (b - pos) <->
             run_at (skipn k (c :: r)) (a - (pos + k)) (b - (pos + k)))).
  { intros k Hk. rewrite (run_at_skipn (c :: r) (b - pos) Hk).
    now replace (a - pos - k) with (a - (pos + k)) by lia;
      replace (b - pos - k) with (b - (pos + k)) by lia. }
  destruct (is_char "@" c && (1 <=? w)) eqn:Hcond.
  - apply andb_true_iff in Hcond. destruct Hcond as [Hc Hw].
    apply is_char_at in Hc. apply Nat.leb_le in Hw. subst c.
    assert (Hskip : List.length (skipn w r) <= n) by (rewrite length_skipn; lia).
    split.
    + intros [Hhead|Htail].
      * injection Hhead as <- <-. split; [lia|].
        replace (pos - pos) with 0 by lia.
        replace (pos + S w - pos) with (S w) by lia.
        apply run_at_head. repeat split; assumption.
      * apply (IH _ Hskip) in Htail. destruct Htail as [Hle Hrun].
        split; [lia|]. apply (Hshift (S w)); [lia|exact Hrun].
    + intros [Hle Hrun].
      destruct (Nat.eq_dec (a - pos) 0) as [Hz|Hnz].
      * left. rewrite Hz in Hrun. apply run_at_head in Hrun.
        destruct Hrun as (_ & _ & Hb). f_equal; lia.
      * destruct (Nat.le_gt_cases (a - pos) w) as [Hin|Hout].
        -- exfalso. destruct Hrun as (Hat & _).
           destruct (a - pos) as [|i] eqn:Ei; [lia|]. simpl in Hat.
           destruct (@run_length_all is_word r i) as [d [Hd Hword]]; [fold w; lia|].
           rewrite Hat in Hd. injection Hd as <-.
           rewrite is_word_at in Hword. discriminate.
        -- right. apply (IH _ Hskip). split; [lia|].
           apply (Hshift (S w)); [lia|exact Hrun].
  - split.
    + intros Htail. apply (IH _ Hr) in Htail. destruct Htail as [Hle Hrun].
      split; [lia|]. apply (Hshift 1); [lia|].
      now replace (pos + 1) with (S pos) by lia.
    + intros [Hle Hrun].
      destruct (Nat.eq_dec (a - pos) 0) as [Hz|Hnz].
      * exfalso. rewrite Hz in Hrun. apply run_at_head in Hrun.
        destruct Hrun as (-> & Hw & _). fold w in Hw.
        apply Nat.leb_le in Hw. rewrite Hw in Hcond. discriminate.
      * apply (IH _ Hr). split; [lia|].
        replace (S pos) with (pos + 1) by lia.
        apply (Hshift 1); [lia|exact Hrun].
Qed.

Lemma chain_weaken (l : list (nat * nat)) (lo lo' : nat) :
  lo' <= lo -> chain lo l -> chain lo' l.
Proof. destruct l as [|m l]; simpl; [tauto|]. intros H (H1 & H2 & H3). repeat split; [lia|assumption..]. Qed.

Lemma chain_lower (l : list (nat * nat)) :
  forall lo j y, chain lo l -> nth_error l j = Some y -> lo <= fst y.
Proof.
  induction l as [|m l IH]; intros lo j y Hc Hy.
  - destruct j; discriminate.
  - destruct Hc as (H1 & H2 & H3). destruct j as [|j]; simpl in Hy.
    + now injection Hy as <-.
    + pose proof (IH _ _ _ H3 Hy). lia.
Qed.

Lemma chain_ordered (l : list (nat * nat)) :
  forall lo i j x y,
    chain lo l -> i < j ->
    nth_error l i = Some x -> nth_error l j = Some y -> snd x <= fst y.
Proof.
  induction l as [|m l IH]; intros lo i j x y Hc Hij Hx Hy.
  - destruct i; discriminate.
  - destruct Hc as (H1 & H2 & H3). destruct j as [|j]; [lia|].
    destruct i as [|i]; simpl in Hx, Hy.
    + injection Hx as <-. eapply chain_lower; eassumption.
    + apply (IH (snd m) i j); [assumption|lia|assumption..].
Qed.

Lemma finditer_mention_chain :
  forall n s,
    List.length s <= n ->
    forall pos, chain pos (finditer_from MENTION_PATTERN 0 pos s).
Proof.
  induction n as [|n IH]; intros s Hn pos;
    (destruct s as [|c r];
     [cbn [finditer_from]; rewrite re_match_mention; exact I|]);
    [simpl in Hn; lia|].
  rewrite finditer_mention_cons.
  destruct (is_char "@" c && (1 <=? run_length is_word r)).
  - cbn [chain fst snd]. repeat split; [lia..|].
    apply IH. rewrite length_skipn. simpl in Hn. lia.
  - apply chain_weaken with (lo := S pos); [lia|].
    apply IH. simpl in Hn. lia.
Qed.

End MentionFacts.

Section MentionSpans.

Variable uni_alnum : char -> bool.
Variable uni_lower : pystr -> pystr.

Local Abbreviation is_word := (is_word uni_alnum).
Local Abbreviation _extract_mentions := (_extract_mentions uni_alnum).
Local Abbreviation run_at := (run_at uni_alnum).
Local Abbreviation mention_match := (mention_match uni_alnum).
Local Abbreviation maximal_mention := (maximal_mention uni_alnum).
Local Abbreviation parse_markdown := (parse_markdown uni_alnum uni_lower).

Lemma char_at_nat (s : pystr) (i : nat) : char_at s (Z.of_nat i) = nth_error s i.
Proof.
  unfold char_at. destruct (Z.ltb_spec (Z.of_nat i) 0); [lia|].
  now rewrite Nat2Z.id.
Qed.

Lemma char_at_some (s : pystr) (i : Z) (c : char) :
  char_at s i = Some c ->
  (0 <= i)%Z /\ nth_error s (Z.to_nat i) = Some c /\ (i < len s)%Z.
Proof.
  unfold char_at. destruct (Z.ltb_spec i 0) as [|Hi]; [discriminate|]. intros Hc.
  repeat split; [assumption..|].
  assert (Z.to_nat i < List.length s) by (apply nth_error_Some; congruence).
  unfold len. lia.
Qed.

(** The maximal matches are the runs. *)
Lemma maximal_mention_run (s : pystr) (a b : Z) :
  maximal_mention s a b <->
  exists i j, a = Z.of_nat i /\ b = Z.of_nat j /\ run_at s i j.
Proof.
  split.
  - intros [(Hat & Hlt & Hlen & Hin) Hmax].
    destruct (char_at_some _ _ Hat) as (Ha & Hnth & _).
    exists (Z.to_nat a), (Z.to_nat b).
    split; [lia|]. split; [lia|]. unfold run_at.
    repeat split.
    + exact Hnth.
    + lia.
    + unfold len in Hlen. lia.
    + intros i Hi. destruct (Hin (Z.of_nat i)) as [c [Hc Hw]]; [lia|].
      rewrite char_at_nat in Hc. now exists c.
    + intros c Hc. destruct (is_word c) eqn:Hw; [exfalso|reflexivity].
      assert (Hb : Z.to_nat b < List.length s) by (apply nth_error_Some; congruence).
      destruct (Hmax a (b + 1)%Z) as [_ Hcontra]; [|lia|lia|lia].
      repeat split; [exact Hat|lia|unfold len; lia|].
      intros i Hi. destruct (Z.eq_dec i b) as [->|Hne].
      * exists c. split; [|exact Hw].
        rewrite <- (Z2Nat.id b) by lia. now rewrite char_at_nat.
      * apply Hin. lia.
  - intros (i & j & -> & -> & (Hat & Hlt & Hlen & Hin & Hend)).
    assert (Hm : mention_match s (Z.of_nat i) (Z.of_nat j)).
    { repeat split.
      - now rewrite char_at_nat.
      - lia.
      - unfold len. lia.
      - intros k Hk. destruct (Hin (Z.to_nat k)) as [c [Hc Hw]]; [lia|].
        exists c. split; [|exact Hw].
        rewrite <- (Z2Nat.id k) by lia. now rewrite char_at_nat. }
    split; [exact Hm|].
    intros a' b' (Hat' & Hlt' & Hlen' & Hin') Hle Hge.
    destruct (char_at_some _ _ Hat') as (Ha' & _ & _).
    assert (Hsame : a' = Z.of_nat i).
    { destruct (Z.eq_dec a' (Z.of_nat i)) as [|Hne]; [assumption|exfalso].
      destruct (Hin' (Z.of_nat i)) as [c [Hc Hw]]; [lia|].
      rewrite char_at_nat, Hat in Hc. injection Hc as <-.
      rewrite is_word_at in Hw. discriminate. }
    split; [exact Hsame|].
    destruct (Z.eq_dec b' (Z.of_nat j)) as [|Hne]; [assumption|exfalso].
    destruct (Hin' (Z.of_nat j)) as [c [Hc Hw]]; [lia|].
    rewrite char_at_nat in Hc. rewrite (Hend c Hc) in Hw. discriminate.
Qed.

Lemma extract_mentions_in (s : pystr) (a b : Z) :
  In (a, b) (_extract_mentions s) <->
  exists i j, a = Z.of_nat i /\ b = Z.of_nat j /\ run_at s i j.
Proof.
  unfold _extract_mentions, finditer. rewrite in_map_iff. split.
  - intros [[i j] [E Hin]]. cbn [fst snd] in E. injection E as <- <-.
    apply (@finditer_mention_spec uni_alnum (List.length s) s (le_n _)) in Hin.
    rewrite !Nat.sub_0_r in Hin. exists i, j. tauto.
  - intros (i & j & -> & -> & Hrun). exists (i, j). split; [reflexivity|].
    apply (@finditer_mention_spec uni_alnum (List.length s) s (le_n _)).
    rewrite !Nat.sub_0_r. split; [lia|exact Hrun].
Qed.

(** C4: the spans that [_extract_mentions] returns are the maximal matches
    of the mention pattern in the text, all of them and nothing else; they
    come in the order of the text, each ending at or before the start of
    the next; each is a range of the text that starts at an at sign.  In
    the result of [parse_markdown] a heading has no spans, and any other
    paragraph (a bullet or a plain one, of style NORMAL_TEXT) has the spans
    of its text. *)
Theorem mention_spans_exact (content markdown_text : pystr) :
  let spans := _extract_mentions content in
  (forall a b, In (a, b) spans <-> maximal_mention content a b)
  /\ (forall i j x y,
         i < j -> nth_error spans i = Some x -> nth_error spans j = Some y ->
         (snd x <= fst y)%Z)
  /\ (forall a b,
         In (a, b) spans ->
         (0 <= a < b)%Z /\ (b <= len content)%Z /\ char_at content a = Some AT)
  /\ (exists paragraphs,
         parse_markdown markdown_text = Ok paragraphs /\
         Forall (fun p =>
                   (startswith (named_style p) (py "HEADING_") = true
                    /\ mention_spans p = [])
                   \/ (named_style p = NORMAL_TEXT
                       /\ mention_spans p = _extract_mentions (text p)))
                paragraphs).
Proof.
  cbv zeta.
  assert (Hiff : forall a b,
             In (a, b) (_extract_mentions content) <-> maximal_mention content a b).
  { intros a b. now rewrite extract_mentions_in, maximal_mention_run. }
  split; [exact Hiff|]. split; [|split].
  - intros i j x y Hij Hx Hy. unfold _extract_mentions in Hx, Hy.
    rewrite nth_error_map in Hx, Hy.
    destruct (nth_error (finditer (MENTION_PATTERN uni_alnum) content) i)
      as [m|] eqn:Em; [|discriminate].
    destruct (nth_error (finditer (MENTION_PATTERN uni_alnum) content) j)
      as [m'|] eqn:Em'; [|discriminate].
    injection Hx as <-. injection Hy as <-. cbn [fst snd].
    apply inj_le.
    apply (@chain_ordered (finditer (MENTION_PATTERN uni_alnum) content) 0 i j);
      try assumption.
    apply (@finditer_mention_chain uni_alnum (List.length content)). lia.
  - intros a b Hin. apply Hiff in Hin.
    destruct Hin as [(Hat & Hlt & Hlen & _) _].
    destruct (char_at_some _ _ Hat) as (Ha & _ & _).
    repeat split; first [lia|assumption].
  - exists (flat_map (paragraph_of_line uni_alnum uni_lower) (splitlines markdown_text)).
    split; [apply parse_markdown_ok|].
    apply Forall_forall. intros p Hp.
    destruct (parse_markdown_paragraph _ _ _ _ Hp) as [line Hline].
    destruct Hline; cbn [named_style mention_spans text];
      [left|right|right]; split; try reflexivity.
    apply startswith_app.
Qed.

End MentionSpans.

(** ** Examples *)

Section ParserExamples.

Variable uni_alnum : char -> bool.
Variable uni_lower : pystr -> pystr.

Local Abbreviation parse_markdown := (parse_markdown uni_alnum uni_lower).

Example parse_empty : parse_markdown [] = Ok [].
Proof. reflexivity. Qed.

(** Blank lines and rules give no paragraph. *)
Example parse_blank_and_rule :
  parse_markdown (py "   " ++ LF ++ py "---" ++ LF ++ LF ++ py " --- ") = Ok [].
Proof. vm_compute. reflexivity. Qed.

Example parse_title :
  parse_markdown (py "# Title") =
  Ok [{| text := py "Title"; named_style := py "HEADING_1";
         bullet := false; checkbox := false; indent_level := 0;
         is_footer := false; mention_spans := [] |}].
Proof. vm_compute. reflexivity. Qed.

Example parse_nested_item :
  parse_markdown (py "    - nested item") =
  Ok [{| text := py "nested item"; named_style := NORMAL_TEXT;
         bullet := true; checkbox := false; indent_level := 2;
         is_footer := false; mention_spans := [] |}].
Proof. vm_compute. reflexivity. Qed.

Example parse_footer :
  parse_markdown (py "Meeting recorded by Otter") =
  Ok [{| text := py "Meeting recorded by Otter"; named_style := NORMAL_TEXT;
         bullet := false; checkbox := false; indent_level := 0;
         is_footer := true; mention_spans := [] |}].
Proof. vm_compute. reflexivity. Qed.

(** Two mentions side by side are two spans. *)
Example parse_adjacent_mentions :
  parse_markdown (py "cc @ann@bob_2 and a@ b") =
  Ok [{| text := py "cc @ann@bob_2 and a@ b"; named_style := NORMAL_TEXT;
         bullet := false; checkbox := false; indent_level := 0;
         is_footer := false; mention_spans := [(3, 7); (7, 13)]%Z |}].
Proof. vm_compute. reflexivity. Qed.

End ParserExamples.

(** The requests for a heading and a footer. *)
Example build_requests_sample :
  build_requests [sample_heading; sample_footer] =
  [insertText 1 (py "Notes" ++ LF);
   insertText 7 (py "Duration: 5" ++ LF);
   updateParagraphStyle {| startIndex := 1; endIndex := 7 |}
     (namedStyleType (py "HEADING_1")) (py "namedStyleType");
   updateTextStyle {| startIndex := 7; endIndex := 18 |}
     footer_style (py "italic,foregroundColor")].
Proof. reflexivity. Qed.

(** Seven [#]: whatever the Unicode database, the line is parsed as one plain
    paragraph, of style NORMAL_TEXT and not HEADING_3. *)
Lemma seven_hashes_is_plain :
  (fun uni_alnum uni_lower =>
     parse_markdown uni_alnum uni_lower (py "####### Deep")) =
  (fun _ _ =>
     Ok [{| text := py "####### Deep";
            named_style := py "NORMAL_TEXT";
            bullet := false; checkbox := false; indent_level := 0;
            is_footer := false; mention_spans := [] |}])
  /\ py "NORMAL_TEXT" <> py "HEADING_3".
Proof. split; [vm_compute; reflexivity|discriminate]. Qed.

(** Six [#]: a heading of level 3. *)
Lemma heading_level_clamped_witness :
  parse_markdown no_alnum same_lower (py "###### Deep") =
  Ok [{| text := py "Deep";
         named_style := py "HEADING_3";
         bullet := false; checkbox := false; indent_level := 0;
         is_footer := false; mention_spans := [] |}].
Proof.
  apply (proj1 (@heading_level_clamped no_alnum same_lower 6 1 (py "Deep")
                  (le_n 1) eq_refl
                  ltac:(repeat constructor))).
  lia.
Defined.

(** A heading and a footer: the footer takes [[7, 19)], and its update is
    over [[7, 18)]. *)
Lemma footer_update_once_witness :
  count (is_footer_update 7 18) (build_requests [sample_heading; sample_footer]) = 1
  /\ In (updateTextStyle {| startIndex := 7; endIndex := 18 |}
           footer_style (py "italic,foregroundColor"))
        (build_requests [sample_heading; sample_footer]).
Proof.
  apply (@footer_update_once [sample_heading; sample_footer] 1 sample_footer 7 19);
    reflexivity.
Defined.

(** A service that times out: the [TimeoutError] leaves [create_document]
    and [populate_document] as it is, and is not a [RuntimeError]. *)
Lemma timeout_not_wrapped :
  create_document unreachable_service (py "Sync") (fresh 0) =
  (Raise (Uncaught timeout_error),
   {| world := 1; calls := [create_call (py "Sync")] |})
  /\ populate_document unreachable_service (py "doc-1") [sample_heading] (fresh 0) =
     (Raise (Uncaught timeout_error),
      {| world := 1;
         calls := [batchUpdate_call (py "doc-1") (build_requests [sample_heading])] |})
  /\ is_wrapped (Uncaught timeout_error) = false.
Proof. repeat split. Qed.

(** A service that creates the document and then refuses the update with
    an [HttpError]. *)
Lemma remote_failures_wrapped_witness :
  convert_notes_to_doc refusing_service no_alnum same_lower
    (py "# Notes") (py "Sync") (fresh 0) =
  (Raise (RuntimeError (py "Failed to update document: quota exceeded") quota_error),
   {| world := 2;
      calls := [create_call (py "Sync");
                batchUpdate_call (py "doc-1") (build_requests [sample_heading])] |}).
Proof.
  apply (proj1 (proj2 (proj2 (proj2
           (remote_failures_wrapped refusing_service no_alnum same_lower))))
           (py "# Notes") (py "Sync") (fresh 0) [sample_heading]
           {| documentId := Some (py "doc-1") |} (py "doc-1") 1 quota_error 2);
    reflexivity.
Defined.

(** * Further properties *)

(** ** The line patterns *)

Lemma skipn_in_run (f : char -> bool) (s : pystr) :
  forall k, k < run_length f s ->
            exists c rest, skipn k s = c :: rest /\ f c = true.
Proof.
  induction s as [|d s IH]; intros k Hk; simpl in Hk; [lia|].
  destruct (f d) eqn:Hd; [|lia].
  destruct k as [|k]; [now exists d, s|].
  simpl. apply IH. lia.
Qed.

Lemma run_length_head_false (f : char -> bool) (c : char) (s : pystr) :
  f c = false -> run_length f (c :: s) = 0.
Proof. intros H. simpl. now rewrite H. Qed.

Lemma hash_not_space (c : char) : is_char "#" c = true -> is_space c = false.
Proof. unfold is_char. intros H. apply N.eqb_eq in H. now subst. Qed.

Lemma space_not_marker (c : char) : is_space c = true -> dash_or_star c = false.
Proof.
  unfold dash_or_star, is_char. intros H.
  destruct (N.eqb_spec c (N_of_ascii "-")) as [->|_]; [discriminate|].
  destruct (N.eqb_spec c (N_of_ascii "*")) as [->|_]; [discriminate|].
  reflexivity.
Qed.

(** The end of the heading and bullet patterns: spaces, then the rest. *)
Lemma re_match_spaces_rest (s : pystr) :
  re_match [plus is_space false; star dot true] s =
  if 1 <=? run_length is_space s
  then Some (run_length is_space s + (run_length dot (lstrip s) + 0),
             [take_while dot (lstrip s)])
  else None.
Proof.
  destruct (Nat.leb_spec 1 (run_length is_space s)) as [H|H].
  - erewrite re_match_plus; [reflexivity|exact H|].
    erewrite re_match_star; reflexivity.
  - apply re_match_needs_one; [cbn; lia|]. cbn [plus p_class]. lia.
Qed.

(** The heading pattern matches the lines that [heading_parts] accepts,
    with the same groups. *)
Lemma re_match_heading_parts (line : pystr) :
  option_map snd (re_match HEADING_PATTERN line) =
  option_map (fun parts => [fst parts; snd parts]) (heading_parts line).
Proof.
  unfold HEADING_PATTERN, heading_parts. rewrite re_match_cons.
  cbn [between p_class p_min p_max p_group]. cbv zeta.
  set (a := run_length (is_char "#") line).
  assert (Hfail : forall k,
             1 <= k -> k < a \/ (k = a /\ run_length is_space (skipn a line) = 0) ->
             match re_match [plus is_space false; star dot true] (skipn k line) with
             | Some (n, groups) => Some (k + n, firstn k line :: groups)
             | None => None
             end = None).
  { intros k Hk [Hlt|[-> Hz]].
    - destruct (@skipn_in_run (is_char "#") line k Hlt) as [c [rest [-> Hc]]].
      rewrite re_match_needs_one; [reflexivity|cbn; lia|].
      apply run_length_head_false. now apply hash_not_space.
    - rewrite re_match_needs_one; [reflexivity|cbn; lia|exact Hz]. }
  destruct (Nat.ltb_spec (Nat.min 6 a) 1) as [Hz|Hpos].
  - replace (1 <=? a) with false by (symmetry; apply Nat.leb_gt; lia).
    reflexivity.
  - replace (1 <=? a) with true by (symmetry; apply Nat.leb_le; lia).
    cbn [andb].
    destruct (Nat.leb_spec a 6) as [Hle|Hgt]; cbn [andb].
    + replace (Nat.min 6 a) with a by lia.
      destruct (Nat.leb_spec 1 (run_length is_space (skipn a line))) as [Hsp|Hsp].
      * rewrite first_down_top with
          (a := (a + (run_length is_space (skipn a line)
                      + (run_length dot (lstrip (skipn a line)) + 0)),
                 [firstn a line; take_while dot (lstrip (skipn a line))]));
          [reflexivity|].
        replace (1 + (a - 1)) with a by lia.
        rewrite re_match_spaces_rest.
        replace (1 <=? run_length is_space (skipn a line)) with true
          by (symmetry; apply Nat.leb_le; exact Hsp).
        reflexivity.
      * rewrite first_down_none; [reflexivity|].
        intros k Hk. apply Hfail; lia.
    + rewrite first_down_none; [reflexivity|].
      intros k Hk. apply Hfail; lia.
Qed.

(** The bullet pattern matches the lines that [bullet_parts] accepts,
    with the same groups. *)
Lemma re_match_bullet_parts (line : pystr) :
  option_map snd (re_match BULLET_PATTERN line) =
  option_map (fun parts => [fst (fst parts); snd (fst parts); snd parts])
    (bullet_parts line).
Proof.
  unfold BULLET_PATTERN, bullet_parts. rewrite re_match_cons.
  cbn [star p_class p_min p_max p_group]. cbv zeta.
  set (w := run_length is_space line).
  change (w <? 0) with false. cbv iota. rewrite Nat.sub_0_r.
  set (f := fun k =>
              match re_match [one dash_or_star true; plus is_space false; star dot true]
                      (skipn k line) with
              | Some (n, groups) => Some (k + n, firstn k line :: groups)
              | None => None
              end).
  assert (Hbelow : forall k, k < w -> f k = None).
  { intros k Hk. unfold f.
    destruct (@skipn_in_run is_space line k Hk) as [c [rest [-> Hc]]].
    rewrite re_match_needs_one; [reflexivity|cbn; lia|].
    apply run_length_head_false. now apply space_not_marker. }
  assert (Hall : f w = None -> first_down f 0 w = None).
  { intros Hw. apply first_down_none. intros k Hk.
    destruct (Nat.eq_dec k w) as [->|Hne]; [exact Hw|apply Hbelow; lia]. }
  destruct (skipn w line) as [|c rest] eqn:Hskip.
  - rewrite Hall; [reflexivity|]. unfold f. now rewrite Hskip.
  - assert (Hone :
      re_match [one dash_or_star true; plus is_space false; star dot true] (c :: rest) =
      if dash_or_star c && (1 <=? run_length is_space rest)
      then Some (1 + (run_length is_space rest + (run_length dot (lstrip rest) + 0)),
                 [[c]; take_while dot (lstrip rest)])
      else None).
    { rewrite re_match_cons.
      cbn [one p_max p_min p_class p_group run_length]. cbv zeta.
      destruct (dash_or_star c) eqn:Hc; [|reflexivity].
      change (Nat.min 1 (S (run_length dash_or_star rest))) with 1.
      change (1 <? 1) with false. cbv iota. change (1 - 1) with 0.
      cbn [first_down]. change (1 + 0) with 1. cbn [skipn firstn andb].
      rewrite re_match_spaces_rest.
      destruct (1 <=? run_length is_space rest); reflexivity. }
    destruct (dash_or_star c && (1 <=? run_length is_space rest)) eqn:Hcond.
    + rewrite first_down_top with
        (a := (w + (1 + (run_length is_space rest
                         + (run_length dot (lstrip rest) + 0))),
               [firstn w line; [c]; take_while dot (lstrip rest)]));
        [reflexivity|].
      cbn [Nat.add]. unfold f. rewrite Hskip, Hone. reflexivity.
    + rewrite Hall; [reflexivity|]. unfold f. now rewrite Hskip, Hone.
Qed.

(** X1: the heading and the bullet pattern of [parse_markdown] accept the
    lines that [heading_parts] and [bullet_parts] describe, and capture
    the groups they give: one to six [#] and a space, or leading spaces,
    a dash or an asterisk and a space. *)
Theorem line_patterns_as_parts (line : pystr) :
  option_map snd (re_match HEADING_PATTERN line) =
  option_map (fun parts => [fst parts; snd parts]) (heading_parts line)
  /\ option_map snd (re_match BULLET_PATTERN line) =
     option_map (fun parts => [fst (fst parts); snd (fst parts); snd parts])
       (bullet_parts line).
Proof.
  split.
  - apply re_match_heading_parts.
  - apply re_match_bullet_parts.
Qed.

Lemma heading_parts_first (line : pystr) (parts : pystr * pystr) :
  heading_parts line = Some parts ->
  exists rest, line = HASH :: rest.
Proof.
  unfold heading_parts.
  destruct line as [|c rest]; [discriminate|]. cbn [run_length].
  destruct (is_char "#" c) eqn:Hc; [|discriminate].
  intros _. exists rest. apply N.eqb_eq in Hc. now subst.
Qed.

Lemma bullet_parts_hash (rest : pystr) : bullet_parts (HASH :: rest) = None.
Proof. reflexivity. Qed.

(** X2: no line matches both patterns, so that testing for a heading
    before testing for a bullet never decides between the two. *)
Theorem line_patterns_disjoint (line : pystr) :
  re_match HEADING_PATTERN line = None \/ re_match BULLET_PATTERN line = None.
Proof.
  pose proof (re_match_heading_parts line) as Hh.
  pose proof (re_match_bullet_parts line) as Hb.
  destruct (heading_parts line) as [parts|] eqn:Eh.
  - right. destruct (heading_parts_first _ Eh) as [rest ->].
    rewrite bullet_parts_hash in Hb.
    destruct (re_match BULLET_PATTERN (HASH :: rest)); [discriminate|reflexivity].
  - left. destruct (re_match HEADING_PATTERN line); [discriminate|reflexivity].
Qed.

(** ** Lines and their paragraphs *)

Lemma splitlines_from_no_break (s : pystr) :
  forall cur line c,
    (forall d, In d cur -> is_linebreak d = false) ->
    In line (splitlines_from cur s) -> In c line -> is_linebreak c = false.
Proof.
  induction s as [|d s IH]; intros cur line c Hcur Hline Hc.
  - simpl in Hline. destruct cur; [contradiction|].
    destruct Hline as [<-|[]]. now apply Hcur.
  - cbn [splitlines_from] in Hline.
    assert (Hnil : forall x : char, In x [] -> is_linebreak x = false) by (intros x []).
    destruct (is_linebreak d) eqn:Hd.
    + assert (Hcase : line = cur \/ In line (splitlines_from [] s)
                      \/ (exists s', s = 0x0A%N :: s' /\ In line (splitlines_from [] s'))).
      { destruct (d =? 0x0D)%N.
        - destruct s as [|e s'].
          + destruct Hline as [<-|H]; [now left|right; now left].
          + destruct (N.eqb_spec e 0x0A) as [->|_].
            * destruct Hline as [<-|H]; [now left|].
              right; right. now exists s'.
            * destruct Hline as [<-|H]; [now left|right; now left].
        - destruct Hline as [<-|H]; [now left|right; now left]. }
      destruct Hcase as [->|[H|[s' [-> H]]]].
      * now apply Hcur.
      * exact (IH [] line c Hnil H Hc).
      * assert (Hin : In line (splitlines_from [] (0x0A%N :: s'))).
        { cbn [splitlines_from]. change (is_linebreak 0x0A%N) with true.
          cbv iota. change (0x0A =? 0x0D)%N with false. cbv iota. now right. }
        exact (IH [] line c Hnil Hin Hc).
    + apply (IH (cur ++ [d]) line c); [|assumption..].
      intros x Hx. apply in_app_or in Hx. destruct Hx as [Hx|[<-|[]]]; auto.
Qed.

(** No line of [str.splitlines] holds a line boundary. *)
Lemma splitlines_no_break (s line : pystr) (c : char) :
  In line (splitlines s) -> In c line -> is_linebreak c = false.
Proof. apply splitlines_from_no_break. intros d []. Qed.

Lemma firstn_incl (n : nat) (s : pystr) (c : char) : In c (firstn n s) -> In c s.
Proof.
  intros H. rewrite <- (firstn_skipn n s). apply in_or_app. now left.
Qed.

Lemma skipn_incl (n : nat) (s : pystr) (c : char) : In c (skipn n s) -> In c s.
Proof.
  intros H. rewrite <- (firstn_skipn n s). apply in_or_app. now right.
Qed.

Lemma lstrip_incl (s : pystr) (c : char) : In c (lstrip s) -> In c s.
Proof. apply drop_while_incl. Qed.

Lemma strip_incl (s : pystr) (c : char) : In c (strip s) -> In c s.
Proof. intros H. apply rstrip_incl in H. now apply lstrip_incl in H. Qed.

Lemma take_while_incl (f : char -> bool) (s : pystr) (c : char) :
  In c (take_while f s) -> In c s.
Proof. apply firstn_incl. Qed.

Lemma take_while_whole (f : char -> bool) (s : pystr) :
  (forall c, In c s -> f c = true) -> take_while f s = s.
Proof.
  intros H. unfold take_while. rewrite run_length_whole by exact H.
  apply firstn_all.
Qed.

Lemma strip_idempotent (s : pystr) : strip (strip s) = strip s.
Proof.
  unfold strip. now rewrite lstrip_rstrip, lstrip_idempotent, rstrip_idempotent.
Qed.

Lemma rstrip_strip (s : pystr) : rstrip (strip s) = strip s.
Proof. unfold strip. apply rstrip_idempotent. Qed.

Lemma lstrip_strip (s : pystr) : lstrip (strip s) = strip s.
Proof. unfold strip. now rewrite lstrip_rstrip, lstrip_idempotent. Qed.

Lemma rstrip_length (s : pystr) : List.length (rstrip s) <= List.length s.
Proof.
  induction s as [|c s IH]; [simpl; lia|].
  rewrite rstrip_cons. destruct (rstrip s) as [|d s'] eqn:E.
  - destruct (is_space c); simpl; lia.
  - simpl in *. lia.
Qed.

Lemma rstrip_app_blank (a b : pystr) : rstrip b = [] -> rstrip (a ++ b) = rstrip a.
Proof.
  intros Hb. induction a as [|c a IH]; [exact Hb|].
  cbn [app]. now rewrite !rstrip_cons, IH.
Qed.

(** What is left after a prefix of a right-stripped text is right-stripped. *)
Lemma rstrip_suffix (a b : pystr) :
  rstrip (a ++ b) = a ++ b -> b <> [] -> rstrip b = b.
Proof.
  intros H Hb. destruct (rstrip b) as [|d b'] eqn:E.
  - exfalso. rewrite rstrip_app_blank in H by exact E.
    pose proof (rstrip_length a) as Hlen. rewrite H, length_app in Hlen.
    destruct b; [contradiction|simpl in Hlen; lia].
  - rewrite rstrip_app in H by (rewrite E; discriminate).
    apply app_inv_head in H. congruence.
Qed.

Lemma strip_lstrip_rstrip_same (s : pystr) : strip (lstrip s) = strip s.
Proof. unfold strip. now rewrite lstrip_idempotent. Qed.

Lemma strip_visible (s : pystr) : rstrip s = s -> s <> [] -> strip s <> [].
Proof.
  intros Hr Hs E. unfold strip in E. rewrite <- lstrip_rstrip, Hr in E.
  apply drop_while_nil in E. apply rstrip_nil in E. congruence.
Qed.

Lemma heading_match_parts (line : pystr) (n : nat) (hashes title : pystr) :
  re_match HEADING_PATTERN line = Some (n, [hashes; title]) ->
  heading_parts line = Some (hashes, title).
Proof.
  intros H. pose proof (re_match_heading_parts line) as E. rewrite H in E.
  destruct (heading_parts line) as [[h t]|]; [|discriminate].
  cbn in E. now injection E as -> ->.
Qed.

Lemma bullet_match_parts (line : pystr) (n : nat) (indent marker remainder : pystr) :
  re_match BULLET_PATTERN line = Some (n, [indent; marker; remainder]) ->
  bullet_parts line = Some (indent, marker, remainder).
Proof.
  intros H. pose proof (re_match_bullet_parts line) as E. rewrite H in E.
  destruct (bullet_parts line) as [[[i m] r]|]; [|discriminate].
  cbn in E. now injection E as -> -> ->.
Qed.

Lemma heading_parts_inv (line hashes title : pystr) :
  heading_parts line = Some (hashes, title) ->
  1 <= List.length hashes <= 6
  /\ title = take_while dot (lstrip (skipn (List.length hashes) line))
  /\ line = hashes ++ skipn (List.length hashes) line
  /\ skipn (List.length hashes) line <> [].
Proof.
  unfold heading_parts. set (a := run_length (is_char "#") line).
  destruct (Nat.leb_spec 1 a) as [H1|]; [|discriminate].
  destruct (Nat.leb_spec a 6) as [H6|]; [|discriminate].
  destruct (Nat.leb_spec 1 (run_length is_space (skipn a line))) as [Hs|]; [|discriminate].
  cbn [andb]. intros E. injection E as <- <-.
  assert (Hlen : List.length (firstn a line) = a).
  { rewrite length_firstn. pose proof (run_length_le (is_char "#") line). fold a in H. lia. }
  rewrite Hlen. repeat split; try lia.
  - now rewrite firstn_skipn.
  - intros E. rewrite E in Hs. simpl in Hs. lia.
Qed.

Lemma bullet_parts_inv (line indent marker remainder : pystr) :
  bullet_parts line = Some (indent, marker, remainder) ->
  exists c rest,
    line = indent ++ c :: rest
    /\ marker = [c]
    /\ remainder = take_while dot (lstrip rest).
Proof.
  unfold bullet_parts. set (w := run_length is_space line).
  destruct (skipn w line) as [|c rest] eqn:Hskip; [discriminate|].
  destruct (dash_or_star c && (1 <=? run_length is_space rest)); [|discriminate].
  intros E. injection E as <- <- <-. exists c, rest.
  repeat split. now rewrite <- Hskip, firstn_skipn.
Qed.

Section ParagraphFacts.

Variable uni_alnum : char -> bool.
Variable uni_lower : pystr -> pystr.

Local Abbreviation parse_line := (parse_line uni_alnum uni_lower).
Local Abbreviation parse_markdown := (parse_markdown uni_alnum uni_lower).
Local Abbreviation _extract_mentions := (_extract_mentions uni_alnum).
Local Abbreviation line_paragraph := (line_paragraph uni_alnum uni_lower).
Local Abbreviation paragraph_of_line := (paragraph_of_line uni_alnum uni_lower).

(** A line is dropped exactly when it is blank or a rule. *)
Lemma parse_line_keeps (raw_line : pystr) :
  if keeps_line raw_line
  then exists paragraph,
         parse_line raw_line = Ok (Some paragraph)
         /\ line_paragraph (rstrip raw_line) paragraph
  else parse_line raw_line = Ok None.
Proof.
  destruct (parse_line_ok uni_alnum uni_lower raw_line) as [appended [E P]].
  unfold keeps_line. destruct appended as [p|].
  - destruct P as (Hne & Hrule & Hp).
    destruct (rstrip raw_line) as [|c l] eqn:Hr; [contradiction|].
    rewrite Hrule. cbn [negb]. now exists p.
  - destruct (rstrip raw_line) as [|c l] eqn:Hr; [exact E|].
    destruct P as [P|P]; [discriminate|]. now rewrite P.
Qed.

(** Every paragraph of the result comes from a line of the text. *)
Lemma parse_markdown_origin (markdown_text : pystr) (paragraph : ParagraphSpec) :
  In paragraph (flat_map paragraph_of_line (splitlines markdown_text)) ->
  exists raw_line,
    In raw_line (splitlines markdown_text)
    /\ rstrip raw_line <> []
    /\ line_paragraph (rstrip raw_line) paragraph.
Proof.
  intros H. apply in_flat_map in H. destruct H as [raw_line [Hin H]].
  unfold paragraph_of_line in H.
  destruct (parse_line_ok uni_alnum uni_lower raw_line) as [appended [E P]].
  rewrite E in H. destruct appended as [p|]; [|contradiction].
  destruct H as [<-|[]]. exists raw_line. tauto.
Qed.

(** X3: [parse_markdown] gives one paragraph for each line that is neither
    blank nor a rule, in the order of the lines, and nothing for the other
    lines. *)
Theorem paragraphs_of_kept_lines (markdown_text : pystr) :
  exists paragraphs,
    parse_markdown markdown_text = Ok paragraphs
    /\ Forall2 (fun raw_line paragraph => parse_line raw_line = Ok (Some paragraph))
         (filter keeps_line (splitlines markdown_text)) paragraphs
    /\ Forall (fun raw_line => parse_line raw_line = Ok None)
         (filter (fun raw_line => negb (keeps_line raw_line))
            (splitlines markdown_text)).
Proof.
  exists (flat_map paragraph_of_line (splitlines markdown_text)).
  split; [apply parse_markdown_ok|].
  induction (splitlines markdown_text) as [|raw_line lines [IH1 IH2]];
    [split; constructor|].
  cbn [flat_map filter]. unfold paragraph_of_line at 1.
  pose proof (parse_line_keeps raw_line) as Hk.
  destruct (keeps_line raw_line); cbn [negb].
  - destruct Hk as [p [E _]]. rewrite E. cbn [app].
    split; [constructor; assumption|assumption].
  - rewrite Hk. cbn [app]. split; [assumption|constructor; assumption].
Qed.

(** X4: every paragraph of the result has one of the four styles; its
    indent level is not negative, and is zero unless it is a bullet; a
    footer is a plain paragraph; and a heading is no bullet and no footer,
    and has no mention. *)
Theorem paragraphs_well_formed (markdown_text : pystr) :
  exists paragraphs,
    parse_markdown markdown_text = Ok paragraphs
    /\ Forall (fun p =>
                 (named_style p = NORMAL_TEXT \/ named_style p = py "HEADING_1"
                  \/ named_style p = py "HEADING_2" \/ named_style p = py "HEADING_3")
                 /\ (0 <= indent_level p)%Z
                 /\ (bullet p = false -> indent_level p = 0%Z)
                 /\ (is_footer p = true ->
                     bullet p = false /\ named_style p = NORMAL_TEXT)
                 /\ (named_style p <> NORMAL_TEXT ->
                     bullet p = false /\ is_footer p = false
                     /\ mention_spans p = []))
         paragraphs.
Proof.
  exists (flat_map paragraph_of_line (splitlines markdown_text)).
  split; [apply parse_markdown_ok|].
  apply Forall_forall. intros p Hp.
  destruct (parse_markdown_paragraph _ _ _ _ Hp) as [line Hline].
  destruct Hline as [n hashes title Hm|n indent marker remainder Hh Hb|Hh Hb];
    cbn [named_style indent_level bullet is_footer mention_spans].
  - apply heading_match_parts, heading_parts_inv in Hm.
    destruct Hm as (Hlen & _). unfold len.
    repeat split; try (reflexivity || lia || discriminate).
    remember (List.length hashes) as k eqn:Ek. clear Ek.
    do 7 (destruct k as [|k];
          [first [lia|right; left; reflexivity
                 |right; right; left; reflexivity
                 |right; right; right; reflexivity]|]).
    lia.
  - repeat split; try (discriminate || congruence).
    + now left.
    + apply Z.div_pos; [apply len_nonneg|lia].
  - repeat split; try (reflexivity || lia || congruence).
    now left.
Qed.

(** X5: the text of a paragraph of the result holds no line boundary and
    does not end with a space; the text of a heading or of a bullet does not
    start with a space either; and only a bullet can have an empty text. *)
Theorem paragraph_texts_clean (markdown_text : pystr) :
  exists paragraphs,
    parse_markdown markdown_text = Ok paragraphs
    /\ Forall (fun p =>
                 Forall (fun c => is_linebreak c = false) (text p)
                 /\ rstrip (text p) = text p
                 /\ (bullet p = true \/ named_style p <> NORMAL_TEXT ->
                     lstrip (text p) = text p)
                 /\ (bullet p = false -> text p <> []))
         paragraphs.
Proof.
  exists (flat_map paragraph_of_line (splitlines markdown_text)).
  split; [apply parse_markdown_ok|].
  apply Forall_forall. intros p Hp.
  destruct (parse_markdown_origin _ _ Hp) as (raw_line & Hraw & Hne & Hline).
  assert (Hclean : forall c, In c (rstrip raw_line) -> is_linebreak c = false).
  { intros c Hc. apply rstrip_incl in Hc. eapply splitlines_no_break; eassumption. }
  destruct Hline as [n hashes title Hm|n indent marker remainder Hh Hb|Hh Hb];
    cbn [text bullet named_style].
  - apply heading_match_parts, heading_parts_inv in Hm.
    destruct Hm as (_ & -> & Hsplit & Hrest).
    set (rest := skipn (List.length hashes) (rstrip raw_line)) in *.
    assert (Hin : forall c, In c rest -> is_linebreak c = false).
    { intros c Hc. apply Hclean. rewrite Hsplit. apply in_or_app. now right. }
    rewrite take_while_whole
      by (intros c Hc; apply dot_of_line, Hin; now apply lstrip_incl in Hc).
    repeat split.
    + apply Forall_forall. intros c Hc. apply Hin.
      apply strip_incl in Hc. now apply lstrip_incl in Hc.
    + apply rstrip_strip.
    + intros _. apply lstrip_strip.
    + intros _. rewrite strip_lstrip_rstrip_same.
      apply strip_visible; [|exact Hrest].
      apply (@rstrip_suffix hashes rest); [|exact Hrest].
      rewrite <- Hsplit. apply rstrip_idempotent.
  - apply bullet_match_parts, bullet_parts_inv in Hb.
    destruct Hb as (c0 & rest & Hsplit & _ & ->). cbv zeta.
    repeat split.
    + apply Forall_forall. intros c Hc. apply Hclean. rewrite Hsplit.
      apply in_or_app. right. right.
      apply strip_incl in Hc.
      assert (Hrem : In c (take_while dot (lstrip rest))).
      { destruct (startswith (take_while dot (lstrip rest)) (py "[ ]"));
          [|exact Hc].
        apply strip_incl in Hc. now apply skipn_incl in Hc. }
      apply take_while_incl in Hrem. now apply lstrip_incl in Hrem.
    + apply rstrip_strip.
    + intros _. apply lstrip_strip.
    + discriminate.
  - repeat split.
    + apply Forall_forall. exact Hclean.
    + apply rstrip_idempotent.
    + intros [H|H]; [discriminate|congruence].
    + intros _. exact Hne.
Qed.

End ParagraphFacts.

(** ** The document that the requests describe *)

Lemma ranges_from_start (paragraphs : list ParagraphSpec) :
  forall cur i r,
    nth_error (ranges_from cur paragraphs) i = Some r ->
    fst r = (cur + total_width (firstn i paragraphs))%Z.
Proof.
  induction paragraphs as [|spec rest IH]; intros cur i r H.
  - destruct i; discriminate.
  - destruct i as [|i]; simpl in H.
    + injection H as <-. unfold total_width. simpl. lia.
    + rewrite (IH _ _ _ H). unfold total_width. cbn [firstn map fold_right]. lia.
Qed.

Lemma inserted_text_app (a b : list Request) :
  inserted_text (a ++ b) = inserted_text a ++ inserted_text b.
Proof. unfold inserted_text. apply flat_map_app. Qed.

Lemma inserted_text_styling (l : list Request) :
  Forall (fun r => is_insertText r = false) l -> inserted_text l = [].
Proof.
  induction 1 as [|r l Hr _ IH]; [reflexivity|].
  unfold inserted_text in *. cbn [flat_map]. rewrite IH.
  destruct r; (discriminate || reflexivity).
Qed.

Lemma inserted_text_insertions (paragraphs : list ParagraphSpec) :
  forall cur,
    inserted_text (map insertion_of (combine paragraphs (ranges_from cur paragraphs))) =
    flat_map (fun spec => text spec ++ LF) paragraphs.
Proof.
  induction paragraphs as [|spec rest IH]; intros cur; [reflexivity|].
  cbn [ranges_from combine map flat_map]. unfold inserted_text in *.
  cbn [flat_map insertion_of fst snd]. now rewrite IH.
Qed.

Lemma len_paragraph_texts (paragraphs : list ParagraphSpec) :
  len (flat_map (fun spec => text spec ++ LF) paragraphs) = total_width paragraphs.
Proof.
  induction paragraphs as [|spec rest IH]; [reflexivity|].
  cbn [flat_map]. rewrite !len_app, IH.
  unfold total_width, width. cbn [map fold_right]. change (len LF) with 1%Z. lia.
Qed.

(** The text of the insertions of [build_requests]. *)
Lemma inserted_text_build (paragraphs : list ParagraphSpec) :
  inserted_text (build_requests paragraphs) =
  flat_map (fun spec => text spec ++ LF) paragraphs.
Proof.
  rewrite build_requests_eq. cbv zeta.
  rewrite inserted_text_app, inserted_text_insertions.
  rewrite inserted_text_styling by apply styling_not_insert.
  apply app_nil_r.
Qed.

Lemma slice_app_mid (pre x post : pystr) (a b : Z) :
  (len pre <= a)%Z -> (a <= b)%Z -> (b <= len pre + len x)%Z ->
  slice (pre ++ x ++ post) a b = slice x (a - len pre) (b - len pre).
Proof.
  unfold slice, len. intros Ha Hab Hb.
  replace (Z.to_nat a) with (List.length pre + Z.to_nat (a - Z.of_nat (List.length pre)))
    by lia.
  rewrite skipn_app, skipn_all2 by lia. cbn [app].
  replace (List.length pre + Z.to_nat (a - Z.of_nat (List.length pre)) - List.length pre)
    with (Z.to_nat (a - Z.of_nat (List.length pre))) by lia.
  rewrite skipn_app, firstn_app, length_skipn.
  replace (Z.to_nat (b - a) - (List.length x - Z.to_nat (a - Z.of_nat (List.length pre))))
    with 0 by lia.
  cbn [firstn]. rewrite app_nil_r. f_equal. lia.
Qed.

Lemma slice_whole (x : pystr) : slice x 0 (len x) = x.
Proof.
  unfold slice, len. cbn [Z.to_nat skipn]. rewrite Z.sub_0_r, Nat2Z.id.
  apply firstn_all.
Qed.

Lemma slice_app_left (x post : pystr) (a b : Z) :
  (0 <= a)%Z -> (a <= b)%Z -> (b <= len x)%Z ->
  slice (x ++ post) a b = slice x a b.
Proof.
  intros Ha Hab Hb.
  pose proof (@slice_app_mid [] x post a b) as H. cbn [app] in H.
  change (len []) with 0%Z in H. rewrite !Z.sub_0_r in H. apply H; lia.
Qed.

(** The text of the insertions, cut at a paragraph. *)
Lemma paragraph_texts_split (paragraphs : list ParagraphSpec) :
  forall i spec,
    nth_error paragraphs i = Some spec ->
    flat_map (fun spec => text spec ++ LF) paragraphs =
    flat_map (fun spec => text spec ++ LF) (firstn i paragraphs)
    ++ (text spec ++ LF)
    ++ flat_map (fun spec => text spec ++ LF) (skipn (S i) paragraphs).
Proof.
  induction paragraphs as [|spec0 rest IH]; intros i spec H.
  - destruct i; discriminate.
  - destruct i as [|i]; simpl in H.
    + injection H as ->. reflexivity.
    + cbn [firstn skipn flat_map]. rewrite (IH _ _ H) at 1.
      now rewrite <- !app_assoc.
Qed.

(** A range of a paragraph, cut out of the text of the insertions. *)
Lemma slice_in_paragraph (paragraphs : list ParagraphSpec)
  (i : nat) (spec : ParagraphSpec) (r : Z * Z) (a b : Z) :
  nth_error paragraphs i = Some spec ->
  nth_error (ranges_from 1 paragraphs) i = Some r ->
  (0 <= a)%Z -> (a <= b)%Z -> (b <= len (text spec) + 1)%Z ->
  slice (inserted_text (build_requests paragraphs)) (fst r + a - 1) (fst r + b - 1) =
  slice (text spec ++ LF) a b.
Proof.
  intros Hspec Hr Ha Hab Hb.
  rewrite inserted_text_build, (paragraph_texts_split _ _ Hspec).
  pose proof (ranges_from_start _ _ _ Hr) as Hstart.
  pose proof (len_paragraph_texts (firstn i paragraphs)) as Hpre.
  rewrite slice_app_mid; rewrite ?len_app, ?Hpre; change (len LF) with 1%Z;
    try lia.
  f_equal; lia.
Qed.

Lemma ranges_from_firstn (paragraphs : list ParagraphSpec) :
  forall cur k,
    firstn k (ranges_from cur paragraphs) = ranges_from cur (firstn k paragraphs).
Proof.
  induction paragraphs as [|spec rest IH]; intros cur k.
  - now destruct k.
  - destruct k as [|k]; [reflexivity|]. cbn [ranges_from firstn]. now rewrite IH.
Qed.

Lemma ranges_from_end (paragraphs : list ParagraphSpec) :
  forall cur i r,
    nth_error (ranges_from cur paragraphs) i = Some r ->
    (snd r <= cur + total_width paragraphs)%Z.
Proof.
  induction paragraphs as [|spec rest IH]; intros cur i r H.
  - destruct i; discriminate.
  - unfold total_width. cbn [map fold_right]. fold (total_width rest).
    destruct i as [|i]; simpl in H.
    + injection H as <-. cbn [snd].
      assert (0 <= total_width rest)%Z.
      { clear. induction rest as [|s r IH]; [unfold total_width; simpl; lia|].
        unfold total_width in *. cbn [map fold_right].
        pose proof (width_pos s). lia. }
      lia.
    + apply IH in H. lia.
Qed.

Lemma combine_nth_inv {A B} (l : list A) :
  forall (l' : list B) i a b,
    nth_error (combine l l') i = Some (a, b) ->
    nth_error l i = Some a /\ nth_error l' i = Some b.
Proof.
  induction l as [|x l IH]; intros l' i a b H.
  - destruct i; discriminate.
  - destruct l' as [|y l']; [destruct i; discriminate|].
    destruct i as [|i]; simpl in H |- *.
    + injection H as -> ->. now split.
    + now apply IH.
Qed.

(** Every request is the insertion or a styling request of a paragraph. *)
Lemma build_requests_origin (paragraphs : list ParagraphSpec) (r : Request) :
  In r (build_requests paragraphs) ->
  exists i spec range,
    nth_error paragraphs i = Some spec
    /\ nth_error (ranges_from 1 paragraphs) i = Some range
    /\ (r = insertion_of (spec, range)
        \/ In r (styling_groups spec (fst range) (snd range))).
Proof.
  rewrite build_requests_eq. cbv zeta. intros H.
  assert (Hitem : exists item,
             In item (combine paragraphs (ranges_from 1 paragraphs))
             /\ (r = insertion_of item \/ In r (styling_of item))).
  { apply in_app_or in H. destruct H as [H|H].
    - apply in_map_iff in H. destruct H as [item [<- Hin]].
      exists item. split; [exact Hin|now left].
    - apply in_flat_map in H. destruct H as [item [Hin Hr]].
      exists item. split; [exact Hin|now right]. }
  destruct Hitem as [[spec [s e]] [Hin Hr]].
  apply In_nth_error in Hin. destruct Hin as [i Hi].
  apply combine_nth_inv in Hi. destruct Hi as [Hspec Hrange].
  exists i, spec, (s, e). rewrite styling_of_eq in Hr. tauto.
Qed.

(** The styling requests of a paragraph are requests of the list. *)
Lemma build_requests_styling (paragraphs : list ParagraphSpec)
  (i : nat) (spec : ParagraphSpec) (range : Z * Z) (r : Request) :
  nth_error paragraphs i = Some spec ->
  nth_error (ranges_from 1 paragraphs) i = Some range ->
  In r (styling_groups spec (fst range) (snd range)) ->
  In r (build_requests paragraphs).
Proof.
  intros Hspec Hrange Hr. rewrite build_requests_eq. cbv zeta.
  apply in_or_app. right. apply in_flat_map.
  exists (spec, range). split.
  - eapply nth_error_In. apply (combine_nth _ _ _ Hspec Hrange).
  - destruct range as [s e]. now rewrite styling_of_eq.
Qed.

(** X6: the insertions build the document front to back: each one is at
    the index just after the text that the insertions before it have put
    in; the cursor ends just after the whole text; and the range of a
    paragraph, cut out of the whole text, is the text of the paragraph and
    its line feed (indices of the document start at 1). *)
Theorem paragraph_ranges_round_trip (paragraphs : list ParagraphSpec) :
  let reqs := build_requests paragraphs in
  let document := inserted_text reqs in
  let st := insertion_pass paragraphs in
  cursor st = (1 + len document)%Z
  /\ (forall k index t,
         nth_error reqs k = Some (insertText index t) ->
         index = (1 + len (inserted_text (firstn k reqs)))%Z)
  /\ (forall i spec r,
         nth_error paragraphs i = Some spec ->
         nth_error (paragraph_ranges st) i = Some r ->
         slice document (fst r - 1) (snd r - 1) = text spec ++ LF).
Proof.
  cbv zeta. rewrite insertion_pass_eq. cbn [cursor paragraph_ranges].
  split; [|split].
  - now rewrite inserted_text_build, len_paragraph_texts.
  - intros k index t Hk. rewrite build_requests_eq in *. cbv zeta in *.
    set (items := combine paragraphs (ranges_from 1 paragraphs)) in *.
    assert (Hlen : List.length (map insertion_of items) = List.length paragraphs).
    { unfold items. now rewrite length_map, combine_ranges_length. }
    destruct (Nat.lt_ge_cases k (List.length paragraphs)) as [Hlt|Hge].
    + rewrite nth_error_app1 in Hk by lia.
      rewrite firstn_app, Hlen.
      replace (k - List.length paragraphs) with 0 by lia.
      cbn [firstn]. rewrite app_nil_r, firstn_map.
      unfold items. rewrite combine_firstn, ranges_from_firstn.
      rewrite inserted_text_insertions, len_paragraph_texts.
      rewrite nth_error_map in Hk. fold items in Hk.
      destruct (nth_error items k) as [[spec range]|] eqn:Hitem; [|discriminate].
      apply combine_nth_inv in Hitem. destruct Hitem as [_ Hrange].
      injection Hk as <- _. cbn [fst snd].
      exact (ranges_from_start _ _ _ Hrange).
    + exfalso. rewrite nth_error_app2 in Hk by lia.
      apply nth_error_In in Hk.
      pose proof (styling_not_insert items) as Hall.
      rewrite Forall_forall in Hall. apply Hall in Hk. discriminate.
  - intros i spec r Hspec Hr.
    destruct (ranges_from_nth _ _ _ Hr) as [_ [spec' [Hspec' Hsnd]]].
    assert (spec' = spec) by congruence. subst spec'.
    pose proof (@slice_in_paragraph paragraphs i spec r 0 (len (text spec) + 1)
                  Hspec Hr) as H.
    pose proof (len_nonneg (text spec)).
    replace (fst r + 0 - 1)%Z with (fst r - 1)%Z in H by lia.
    replace (fst r + (len (text spec) + 1) - 1)%Z with (snd r - 1)%Z in H
      by (rewrite Hsnd; unfold width; lia).
    rewrite H by lia.
    replace (len (text spec) + 1)%Z with (len (text spec ++ LF))
      by (rewrite len_app; reflexivity).
    apply slice_whole.
Qed.

(** X7: the text-style updates cover what they are meant to: in the whole
    text, the range of the footer update of a paragraph is the text of the
    paragraph without its line feed, and the range of the update of a
    mention span [(a, b)] that lies in the text is [text[a:b]]. *)
Theorem text_style_ranges_cover (paragraphs : list ParagraphSpec)
  (i : nat) (spec : ParagraphSpec) (start end_ : Z) :
  nth_error paragraphs i = Some spec ->
  nth_error (paragraph_ranges (insertion_pass paragraphs)) i = Some (start, end_) ->
  let reqs := build_requests paragraphs in
  let document := inserted_text reqs in
  slice document (start - 1) (start + len (text spec) - 1) = text spec
  /\ (forall a b,
         In (a, b) (mention_spans spec) ->
         (0 <= a)%Z -> (a <= b)%Z -> (b <= len (text spec))%Z ->
         In (updateTextStyle
               {| startIndex := start + a; endIndex := start + b |}
               mention_style (py "bold,foregroundColor")) reqs
         /\ slice document (start + a - 1) (start + b - 1) = slice (text spec) a b).
Proof.
  intros Hspec Hr. cbv zeta. rewrite insertion_pass_eq in Hr.
  cbn [paragraph_ranges] in Hr. pose proof (len_nonneg (text spec)) as Hlen.
  split.
  - pose proof (@slice_in_paragraph paragraphs i spec (start, end_) 0 (len (text spec))
                  Hspec Hr) as H.
    cbn [fst] in H. replace (start + 0 - 1)%Z with (start - 1)%Z in H by lia.
    rewrite H by lia. rewrite slice_app_left by lia. apply slice_whole.
  - intros a b Hin Ha Hab Hb. split.
    + apply (@build_requests_styling paragraphs i spec (start, end_) _ Hspec Hr).
      unfold styling_groups. cbn [fst snd].
      do 3 (apply in_or_app; right).
      apply in_map_iff. exists (a, b). split; [reflexivity|exact Hin].
    + pose proof (@slice_in_paragraph paragraphs i spec (start, end_) a b Hspec Hr) as H.
      cbn [fst] in H. rewrite H by lia. apply slice_app_left; lia.
Qed.

(** The requests of one paragraph, by kind. *)
Lemma styling_groups_in (spec : ParagraphSpec) (start end_ : Z) (r : Request) :
  In r (styling_groups spec start end_) ->
  (exists style fields,
      r = updateParagraphStyle {| startIndex := start; endIndex := end_ |} style fields)
  \/ (exists preset,
         r = createParagraphBullets {| startIndex := start; endIndex := end_ |} preset)
  \/ (is_footer spec = true /\ r = footer_update start spec)
  \/ (exists span, In span (mention_spans spec) /\ r = mention_update start span).
Proof.
  unfold styling_groups. intros H.
  apply in_app_or in H. destruct H as [H|H].
  { destruct (negb _); [|contradiction]. destruct H as [<-|[]]. left. eauto. }
  apply in_app_or in H. destruct H as [H|H].
  { destruct (bullet spec); [|contradiction].
    apply in_app_or in H. destruct H as [H|[<-|[]]].
    - destruct (negb _); [|contradiction]. destruct H as [<-|[]]. left. eauto.
    - right; left. eauto. }
  apply in_app_or in H. destruct H as [H|H].
  { destruct (is_footer spec) eqn:E; [|contradiction]. destruct H as [<-|[]].
    right; right; left. now split. }
  apply in_map_iff in H. destruct H as [span [<- Hin]].
  right; right; right. now exists span.
Qed.

Lemma skipn_nth (s : pystr) :
  forall i c, nth_error s i = Some c -> skipn i s = c :: skipn (S i) s.
Proof.
  induction s as [|d s IH]; intros i c H.
  - destruct i; discriminate.
  - destruct i as [|i]; simpl in H.
    + now injection H as ->.
    + cbn [skipn]. now apply IH.
Qed.

Section DocumentFacts.

Variable uni_alnum : char -> bool.
Variable uni_lower : pystr -> pystr.

Local Abbreviation is_word := (is_word uni_alnum).
Local Abbreviation run_at := (run_at uni_alnum).
Local Abbreviation parse_markdown := (parse_markdown uni_alnum uni_lower).
Local Abbreviation line_paragraph := (line_paragraph uni_alnum uni_lower).
Local Abbreviation paragraph_of_line := (paragraph_of_line uni_alnum uni_lower).

(** A run, cut out of the text: an at sign and a name. *)
Lemma run_at_slice (s : pystr) (i j : nat) :
  run_at s i j ->
  exists name,
    name <> [] /\ forallb is_word name = true
    /\ slice s (Z.of_nat i) (Z.of_nat j) = AT :: name.
Proof.
  intros (Hat & Hlt & Hlen & Hin & _).
  exists (firstn (j - i - 1) (skipn (S i) s)). repeat split.
  - intros E. apply (f_equal (@List.length char)) in E.
    rewrite length_firstn, length_skipn in E. simpl in E. lia.
  - apply forallb_forall. intros c Hc. apply In_nth_error in Hc.
    destruct Hc as [m Hm].
    assert (Hmlt : m < j - i - 1).
    { assert (m < List.length (firstn (j - i - 1) (skipn (S i) s)))
        by (apply nth_error_Some; congruence).
      rewrite length_firstn in H. lia. }
    rewrite nth_error_firstn in Hm.
    destruct (Nat.ltb_spec m (j - i - 1)); [|lia].
    rewrite nth_error_skipn in Hm.
    destruct (Hin (S i + m)) as [d [Hd Hw]]; [lia|]. congruence.
  - unfold slice. rewrite Nat2Z.id.
    replace (Z.to_nat (Z.of_nat j - Z.of_nat i)) with (S (j - i - 1)) by lia.
    rewrite (skipn_nth _ _ Hat). reflexivity.
Qed.

(** The spans of a paragraph of the parser are runs of its text. *)
Lemma line_paragraph_spans (line : pystr) (paragraph : ParagraphSpec) (a b : Z) :
  line_paragraph line paragraph ->
  In (a, b) (mention_spans paragraph) ->
  exists i j, a = Z.of_nat i /\ b = Z.of_nat j /\ run_at (text paragraph) i j.
Proof.
  intros Hline Hin.
  destruct Hline; cbn [mention_spans text] in *;
    [contradiction|now apply extract_mentions_in in Hin..].
Qed.

Lemma run_at_bounds (s : pystr) (i j : nat) :
  run_at s i j -> i + 1 < j /\ j <= List.length s.
Proof. intros (_ & H1 & H2 & _). now split. Qed.

(** X8: from the text to the document: every bold update among the
    requests for the parsed text covers an at sign followed by a name of one
    or more word characters in the text of the insertions. *)
Theorem mention_updates_cover_names (markdown_text : pystr) :
  exists paragraphs,
    parse_markdown markdown_text = Ok paragraphs
    /\ forall range fields,
         In (updateTextStyle range mention_style fields) (build_requests paragraphs) ->
         exists name,
           name <> [] /\ forallb is_word name = true
           /\ slice (inserted_text (build_requests paragraphs))
                (startIndex range - 1) (endIndex range - 1) = AT :: name.
Proof.
  exists (flat_map paragraph_of_line (splitlines markdown_text)).
  split; [apply parse_markdown_ok|].
  intros range fields Hin.
  destruct (build_requests_origin _ _ Hin) as (i & spec & [s e] & Hspec & Hr & Hkind).
  destruct Hkind as [Hins|Hsty]; [discriminate|].
  cbn [fst snd] in Hsty. apply styling_groups_in in Hsty.
  destruct Hsty as [(? & ? & Hx)|[(? & Hx)|[(_ & Hx)|(span & Hspan & Hx)]]];
    try discriminate.
  destruct span as [a b]. unfold mention_update in Hx. cbn [fst snd] in Hx.
  injection Hx as -> _. cbn [startIndex endIndex].
  destruct (parse_markdown_paragraph _ _ _ _ (nth_error_In _ _ Hspec)) as [line Hline].
  destruct (@line_paragraph_spans line spec a b Hline Hspan)
      as (m & n & -> & -> & Hrun).
  destruct (run_at_slice Hrun) as (name & Hne & Hword & Hslice).
  destruct (run_at_bounds Hrun) as [Hlt Hle].
  exists name. split; [exact Hne|]. split; [exact Hword|].
  pose proof (@slice_in_paragraph _ i spec (s, e) (Z.of_nat m) (Z.of_nat n) Hspec Hr) as H.
  cbn [fst] in H. rewrite H by (unfold len; lia).
  rewrite slice_app_left by (unfold len; lia). exact Hslice.
Qed.

(** X9: from the text to the document: every request for the parsed text
    addresses the document that the insertions build: an insertion is at
    an index from 1 to below the final cursor, and the range of a styling
    request is not empty and lies between 1 and the final cursor. *)
Theorem requests_address_document (markdown_text : pystr) :
  exists paragraphs,
    parse_markdown markdown_text = Ok paragraphs
    /\ Forall (addresses 1 (cursor (insertion_pass paragraphs)))
         (build_requests paragraphs).
Proof.
  exists (flat_map paragraph_of_line (splitlines markdown_text)).
  split; [apply parse_markdown_ok|].
  apply Forall_forall. intros r Hin. rewrite insertion_pass_eq. cbn [cursor].
  destruct (build_requests_origin _ _ Hin) as (i & spec & [s e] & Hspec & Hr & Hkind).
  destruct (ranges_from_nth _ _ _ Hr) as [Hlo [spec' [Hspec' Hsnd]]].
  assert (spec' = spec) by congruence. subst spec'.
  pose proof (ranges_from_end _ _ _ Hr) as Hhi.
  pose proof (len_nonneg (text spec)) as Hlen.
  cbn [fst snd] in *. unfold width in Hsnd.
  destruct (parse_markdown_origin _ _ _ _ (nth_error_In _ _ Hspec))
    as (raw_line & _ & Hne & Hline).
  destruct Hkind as [->|Hsty].
  - unfold insertion_of, addresses. cbn [fst snd]. lia.
  - apply styling_groups_in in Hsty.
    destruct Hsty as [(? & ? & ->)|[(? & ->)|[(Hfoot & ->)|(span & Hspan & ->)]]];
      unfold addresses, footer_update, mention_update; cbn [startIndex endIndex].
    + lia.
    + lia.
    + assert (Htext : text spec <> []).
      { destruct Hline; cbn [is_footer text] in *; try discriminate. exact Hne. }
      assert (0 < len (text spec))%Z.
      { unfold len. destruct (text spec); [contradiction|simpl; lia]. }
      lia.
    + destruct span as [a b].
      destruct (@line_paragraph_spans (rstrip raw_line) spec a b Hline Hspan)
        as (m & n & -> & -> & Hrun).
      destruct (run_at_bounds Hrun) as [Hlt Hle]. cbn [fst snd].
      unfold len in *. lia.
Qed.

End DocumentFacts.

(** ** How many requests of each kind *)

Lemma count_cons (f : Request -> bool) (r : Request) (l : list Request) :
  count f (r :: l) = (if f r then 1 else 0) + count f l.
Proof. unfold count. cbn [filter]. now destruct (f r). Qed.

Lemma count_map_const {A} (f : Request -> bool) (g : A -> Request) (b : bool)
  (l : list A) :
  (forall x, f (g x) = b) ->
  count f (map g l) = if b then List.length l else 0.
Proof.
  intros H. induction l as [|x l IH]; cbn [map]; [now destruct b|].
  rewrite count_cons, H, IH. now destruct b.
Qed.

Lemma length_filter_sum {A} (P : A -> bool) (l : list A) :
  List.length (filter P l) = list_sum (map (fun x => if P x then 1 else 0) l).
Proof.
  induction l as [|x l IH]; [reflexivity|].
  cbn [filter map list_sum]. destruct (P x); simpl; now rewrite IH.
Qed.

Lemma length_flat_map_sum {A B} (g : A -> list B) (l : list A) :
  List.length (flat_map g l) = list_sum (map (fun x => List.length (g x)) l).
Proof.
  induction l as [|x l IH]; [reflexivity|].
  cbn [flat_map map list_sum]. now rewrite length_app, IH.
Qed.

(** A count over the styling requests, paragraph by paragraph. *)
Lemma count_styling_sum (f : Request -> bool) (g : ParagraphSpec -> nat) :
  (forall spec s e, count f (styling_groups spec s e) = g spec) ->
  forall paragraphs cur,
    count f (flat_map styling_of (combine paragraphs (ranges_from cur paragraphs))) =
    list_sum (map g paragraphs).
Proof.
  intros Hg. induction paragraphs as [|spec rest IH]; intros cur; [reflexivity|].
  cbn [ranges_from combine flat_map map list_sum].
  now rewrite count_app, styling_of_eq, Hg, IH.
Qed.

Lemma count_insertions (f : Request -> bool) (b : bool)
  (paragraphs : list ParagraphSpec) (cur : Z) :
  (forall item, f (insertion_of item) = b) ->
  count f (map insertion_of (combine paragraphs (ranges_from cur paragraphs))) =
  if b then List.length paragraphs else 0.
Proof.
  intros H. rewrite (@count_map_const _ f insertion_of b _ H).
  now rewrite combine_ranges_length.
Qed.

Lemma indent_zero (level : Z) :
  (level * INDENT_WIDTH_PT =? 0)%Z = (level =? 0)%Z.
Proof.
  unfold INDENT_WIDTH_PT.
  destruct (Z.eqb_spec level 0) as [->|Hne]; [reflexivity|].
  apply Z.eqb_neq. lia.
Qed.

(** The counts over the requests of one paragraph. *)
Lemma count_kinds_paragraph (spec : ParagraphSpec) (s e : Z) :
  count is_insertText (styling_groups spec s e) = 0
  /\ count is_named_style_update (styling_groups spec s e)
     = (if is_heading spec then 1 else 0)
  /\ count is_indent_update (styling_groups spec s e)
     = (if is_indented_bullet spec then 1 else 0)
  /\ count is_bullets (styling_groups spec s e) = (if bullet spec then 1 else 0)
  /\ count is_italic_update (styling_groups spec s e)
     = (if is_footer spec then 1 else 0)
  /\ count is_bold_update (styling_groups spec s e)
     = List.length (mention_spans spec).
Proof.
  unfold styling_groups, is_heading, is_indented_bullet.
  rewrite indent_zero. rewrite !count_app.
  rewrite (@count_map_const _ is_insertText (mention_update s) false) by reflexivity.
  rewrite (@count_map_const _ is_named_style_update (mention_update s) false) by reflexivity.
  rewrite (@count_map_const _ is_indent_update (mention_update s) false) by reflexivity.
  rewrite (@count_map_const _ is_bullets (mention_update s) false) by reflexivity.
  rewrite (@count_map_const _ is_italic_update (mention_update s) false) by reflexivity.
  rewrite (@count_map_const _ is_bold_update (mention_update s) true) by reflexivity.
  destruct (negb (str_eqb (named_style spec) NORMAL_TEXT));
    destruct (bullet spec); destruct (negb (indent_level spec =? 0)%Z);
    destruct (is_footer spec); cbn; repeat split; reflexivity.
Qed.

(** Each request of the list is of one kind. *)
Lemma build_requests_one_kind (paragraphs : list ParagraphSpec) :
  Forall (fun r =>
            Nat.b2n (is_insertText r) + Nat.b2n (is_named_style_update r)
            + Nat.b2n (is_indent_update r) + Nat.b2n (is_bullets r)
            + Nat.b2n (is_italic_update r) + Nat.b2n (is_bold_update r) = 1)
         (build_requests paragraphs).
Proof.
  apply Forall_forall. intros r Hin.
  destruct (build_requests_origin _ _ Hin) as (i & spec & [s e] & _ & _ & Hkind).
  destruct Hkind as [->|Hsty]; [reflexivity|].
  apply styling_groups_in in Hsty.
  destruct Hsty as [(style & ? & ->)|[(? & ->)|[(_ & ->)|(span & _ & ->)]]];
    [now destruct style|reflexivity..].
Qed.

Lemma length_by_kind (f1 f2 f3 f4 f5 f6 : Request -> bool) (l : list Request) :
  Forall (fun r =>
            Nat.b2n (f1 r) + Nat.b2n (f2 r) + Nat.b2n (f3 r)
            + Nat.b2n (f4 r) + Nat.b2n (f5 r) + Nat.b2n (f6 r) = 1) l ->
  List.length l =
  count f1 l + count f2 l + count f3 l + count f4 l + count f5 l + count f6 l.
Proof.
  induction 1 as [|r l Hr _ IH]; [reflexivity|].
  rewrite !count_cons. cbn [List.length]. rewrite IH.
  destruct (f1 r), (f2 r), (f3 r), (f4 r), (f5 r), (f6 r); simpl in Hr; lia.
Qed.

(** X10: the requests by kind: one insertion for each paragraph, one
    named-style update for each paragraph whose style is not NORMAL_TEXT,
    one bullet creation for each bullet, one indent update for each bullet
    whose indent level is not zero, one italic update for each footer and
    one bold update for each mention span; and there is no other request. *)
Theorem request_census (paragraphs : list ParagraphSpec) :
  let reqs := build_requests paragraphs in
  count is_insertText reqs = List.length paragraphs
  /\ count is_named_style_update reqs = List.length (filter is_heading paragraphs)
  /\ count is_indent_update reqs = List.length (filter is_indented_bullet paragraphs)
  /\ count is_bullets reqs = List.length (filter bullet paragraphs)
  /\ count is_italic_update reqs = List.length (filter is_footer paragraphs)
  /\ count is_bold_update reqs = List.length (flat_map mention_spans paragraphs)
  /\ List.length reqs =
     List.length paragraphs
     + List.length (filter is_heading paragraphs)
     + List.length (filter is_indented_bullet paragraphs)
     + List.length (filter bullet paragraphs)
     + List.length (filter is_footer paragraphs)
     + List.length (flat_map mention_spans paragraphs).
Proof.
  cbv zeta.
  assert (H1 : count is_insertText (build_requests paragraphs) = List.length paragraphs).
  { rewrite build_requests_eq. cbv zeta. rewrite count_app.
    rewrite (@count_insertions is_insertText true) by reflexivity.
    rewrite (@count_styling_sum is_insertText (fun _ => 0))
      by (intros; apply count_kinds_paragraph).
    clear. induction paragraphs; simpl; lia. }
  assert (Hstyle : forall f g,
             (forall item, f (insertion_of item) = false) ->
             (forall spec s e, count f (styling_groups spec s e) = g spec) ->
             count f (build_requests paragraphs) = list_sum (map g paragraphs)).
  { intros f g Hins Hg. rewrite build_requests_eq. cbv zeta. rewrite count_app.
    rewrite (@count_insertions f false) by exact Hins.
    now rewrite (@count_styling_sum f g Hg). }
  assert (H2 : count is_named_style_update (build_requests paragraphs)
               = List.length (filter is_heading paragraphs)).
  { rewrite length_filter_sum. apply Hstyle; [reflexivity|].
    intros; apply count_kinds_paragraph. }
  assert (H3 : count is_indent_update (build_requests paragraphs)
               = List.length (filter is_indented_bullet paragraphs)).
  { rewrite length_filter_sum. apply Hstyle; [reflexivity|].
    intros; apply count_kinds_paragraph. }
  assert (H4 : count is_bullets (build_requests paragraphs)
               = List.length (filter bullet paragraphs)).
  { rewrite length_filter_sum. apply Hstyle; [reflexivity|].
    intros; apply count_kinds_paragraph. }
  assert (H5 : count is_italic_update (build_requests paragraphs)
               = List.length (filter is_footer paragraphs)).
  { rewrite length_filter_sum. apply Hstyle; [reflexivity|].
    intros; apply count_kinds_paragraph. }
  assert (H6 : count is_bold_update (build_requests paragraphs)
               = List.length (flat_map mention_spans paragraphs)).
  { rewrite length_flat_map_sum. apply Hstyle; [reflexivity|].
    intros; apply count_kinds_paragraph. }
  repeat split; try assumption.
  rewrite (@length_by_kind is_insertText is_named_style_update is_indent_update
             is_bullets is_italic_update is_bold_update _
             (build_requests_one_kind paragraphs)).
  lia.
Qed.

(** ** A whole conversion *)


(** ** Bullet lines *)

Lemma run_length_prefix (f : char -> bool) (a b : pystr) :
  forallb f a = true -> run_length f (a ++ b) = List.length a + run_length f b.
Proof.
  induction a as [|c a IH]; simpl; intros H; [reflexivity|].
  apply andb_true_iff in H. destruct H as [Hc Ha]. now rewrite Hc, IH.
Qed.

Lemma lstrip_app_blank (a b : pystr) :
  forallb is_space a = true -> lstrip (a ++ b) = lstrip b.
Proof.
  unfold lstrip. induction a as [|c a IH]; simpl; intros H; [reflexivity|].
  apply andb_true_iff in H. destruct H as [Hc Ha]. now rewrite Hc, IH.
Qed.

Lemma marker_not_space (c : char) : dash_or_star c = true -> is_space c = false.
Proof.
  intros H. destruct (is_space c) eqn:E; [|reflexivity].
  apply space_not_marker in E. congruence.
Qed.

Lemma marker_not_hash (c : char) : dash_or_star c = true -> is_char "#" c = false.
Proof.
  unfold dash_or_star, is_char. intros H.
  destruct (N.eqb_spec c (N_of_ascii "#")) as [->|_]; [discriminate|reflexivity].
Qed.

Lemma space_not_hash (c : char) : is_space c = true -> is_char "#" c = false.
Proof.
  intros H. destruct (is_char "#" c) eqn:E; [|reflexivity].
  apply hash_not_space in E. congruence.
Qed.

(** The heading pattern needs a [#] at the start of the line. *)
Lemma heading_needs_hash (c : char) (rest : pystr) :
  is_char "#" c = false -> re_match HEADING_PATTERN (c :: rest) = None.
Proof.
  intros H. unfold HEADING_PATTERN.
  apply re_match_needs_one; [cbn; lia|].
  cbn [between p_class]. now apply run_length_head_false.
Qed.

(** The bullet pattern needs a space or a marker at the start of the line. *)
Lemma bullet_needs_marker (c : char) (rest : pystr) :
  is_space c = false -> dash_or_star c = false ->
  re_match BULLET_PATTERN (c :: rest) = None.
Proof.
  intros Hs Hm. pose proof (re_match_bullet_parts (c :: rest)) as H.
  unfold bullet_parts in H. cbn [run_length] in H. rewrite Hs in H.
  cbn [skipn] in H. rewrite Hm in H. cbn [andb option_map] in H.
  destruct (re_match BULLET_PATTERN (c :: rest)); [discriminate|reflexivity].
Qed.

Lemma rstrip_app_visible (a b : pystr) : rstrip a = a -> rstrip (a ++ b) = a ++ rstrip b.
Proof.
  intros Ha. destruct (rstrip b) as [|d b'] eqn:E.
  - rewrite rstrip_app_blank by exact E. now rewrite Ha, app_nil_r.
  - rewrite rstrip_app by (rewrite E; discriminate). now rewrite E.
Qed.

(** The bullet pattern on a line of leading spaces, a marker, spaces and a
    text that ends with a visible character. *)
Lemma bullet_match (ws : pystr) (marker : char) (m : nat) (t : pystr) :
  forallb is_space ws = true ->
  dash_or_star marker = true ->
  1 <= m ->
  (forall c, In c t -> is_linebreak c = false) ->
  exists n,
    re_match BULLET_PATTERN (ws ++ marker :: repeat SPACE m ++ t) =
    Some (n, [ws; [marker]; lstrip t]).
Proof.
  intros Hws Hmark Hm Hline.
  pose proof (re_match_bullet_parts (ws ++ marker :: repeat SPACE m ++ t)) as H.
  unfold bullet_parts in H.
  rewrite run_length_prefix in H by exact Hws.
  rewrite (@run_length_head_false is_space marker _ (@marker_not_space marker Hmark)) in H.
  rewrite Nat.add_0_r in H.
  rewrite skipn_app, skipn_all, Nat.sub_diag in H. cbn [app skipn] in H.
  rewrite Hmark in H.
  rewrite run_length_repeat in H by reflexivity.
  replace (1 <=? m + run_length is_space t) with true in H
    by (symmetry; apply Nat.leb_le; lia).
  cbn [andb option_map fst snd] in H.
  rewrite firstn_app, firstn_all, Nat.sub_diag in H. cbn [firstn] in H.
  rewrite app_nil_r in H.
  rewrite lstrip_app_blank in H
    by (apply forallb_forall; intros c Hc; apply repeat_spec in Hc; now subst).
  rewrite take_while_whole in H
    by (intros c Hc; apply dot_of_line, Hline; now apply lstrip_incl in Hc).
  destruct (re_match BULLET_PATTERN (ws ++ marker :: repeat SPACE m ++ t))
    as [[n groups]|]; [|discriminate].
  cbn [option_map snd] in H. injection H as ->. now exists n.
Qed.

Section BulletFacts.

Variable uni_alnum : char -> bool.
Variable uni_lower : pystr -> pystr.

Local Abbreviation parse_line := (parse_line uni_alnum uni_lower).
Local Abbreviation parse_markdown := (parse_markdown uni_alnum uni_lower).
Local Abbreviation _extract_mentions := (_extract_mentions uni_alnum).

(** X12: a line of leading spaces, a dash or an asterisk, one or more
    spaces and a text is parsed as one bullet paragraph.  Its indent level
    is half the number of leading spaces, rounded down.  It has a checkbox
    when the stripped text starts with [[ ]], which is then taken off the
    text.  Its mentions are those of the text that is left. *)
Theorem bullet_line_parsed (ws : pystr) (marker : char) (m : nat) (content : pystr) :
  forallb is_space ws = true ->
  Forall (fun c => is_linebreak c = false) ws ->
  dash_or_star marker = true ->
  1 <= m ->
  forallb is_space content = false ->
  Forall (fun c => is_linebreak c = false) content ->
  let body := strip content in
  let checked := startswith body (py "[ ]") in
  let clean_text := if checked then strip (skipn 3 body) else body in
  parse_markdown (ws ++ marker :: repeat SPACE m ++ content) =
  Ok [{| text := clean_text;
         named_style := NORMAL_TEXT;
         bullet := true; checkbox := checked;
         indent_level := len ws / 2;
         is_footer := false;
         mention_spans := _extract_mentions clean_text |}].
Proof.
  intros Hws Hwsline Hmark Hm Hvis Hline. cbv zeta.
  assert (Hr : rstrip content <> []).
  { intros E. apply rstrip_nil in E. congruence. }
  assert (Hmline : is_linebreak marker = false).
  { unfold dash_or_star, is_char in Hmark. apply orb_true_iff in Hmark.
    destruct Hmark as [H|H]; apply N.eqb_eq in H; now subst. }
  assert (Hone : Forall (fun c => is_linebreak c = false)
                   (ws ++ marker :: repeat SPACE m ++ content)).
  { apply Forall_app. split; [exact Hwsline|]. constructor; [exact Hmline|].
    apply Forall_app. split; [|exact Hline].
    apply Forall_forall. intros c Hc. apply repeat_spec in Hc. now subst. }
  rewrite parse_markdown_one_line; [|now destruct ws|exact Hone].
  assert (Hrs : rstrip (ws ++ marker :: repeat SPACE m ++ content) =
                ws ++ marker :: repeat SPACE m ++ rstrip content).
  { change (ws ++ marker :: repeat SPACE m ++ content)
      with (ws ++ (marker :: repeat SPACE m) ++ content).
    rewrite app_assoc, rstrip_app, <- app_assoc by exact Hr. reflexivity. }
  unfold parse_line. rewrite Hrs.
  assert (Hrule : str_eqb (strip (ws ++ marker :: repeat SPACE m ++ rstrip content))
                    (py "---") = false).
  { unfold strip. rewrite lstrip_app_blank by exact Hws.
    unfold lstrip. cbn [drop_while]. rewrite (@marker_not_space marker Hmark).
    rewrite rstrip_cons_visible by (now apply marker_not_space).
    destruct m as [|m]; [lia|]. cbn [repeat app].
    change (SPACE :: repeat SPACE m ++ rstrip content)
      with ((SPACE :: repeat SPACE m) ++ rstrip content).
    rewrite rstrip_app by (rewrite rstrip_idempotent; exact Hr).
    cbn [app str_eqb py map list_ascii_of_string].
    change (N.eqb SPACE (N_of_ascii "-")) with false.
    now rewrite andb_false_r. }
  rewrite Hrule.
  assert (Hhead : re_match HEADING_PATTERN
                    (ws ++ marker :: repeat SPACE m ++ rstrip content) = None).
  { destruct ws as [|c ws'].
    - apply heading_needs_hash. now apply marker_not_hash.
    - apply heading_needs_hash. apply space_not_hash.
      cbn [forallb] in Hws. now apply andb_true_iff in Hws. }
  destruct (@bullet_match ws marker m (rstrip content) Hws Hmark Hm) as [n Hbul].
  { intros c Hc. apply rstrip_incl in Hc.
    rewrite Forall_forall in Hline. now apply Hline. }
  destruct (ws ++ marker :: repeat SPACE m ++ rstrip content) as [|c0 l0] eqn:El;
    [now destruct ws|].
  rewrite Hhead, Hbul. cbn [unpack3 bind].
  rewrite lstrip_rstrip. fold (strip content).
  destruct (startswith (strip content) (py "[ ]")).
  - now rewrite strip_idempotent.
  - now rewrite strip_idempotent.
Qed.

End BulletFacts.

(** Four leading spaces and a checkbox. *)
Lemma bullet_line_parsed_witness :
  parse_markdown no_alnum same_lower (py "    * [ ]  call @bob ") =
  Ok [{| text := py "call @bob";
         named_style := NORMAL_TEXT;
         bullet := true; checkbox := true;
         indent_level := 2;
         is_footer := false;
         mention_spans := [(5, 9)%Z] |}].
Proof.
  apply (@bullet_line_parsed no_alnum same_lower (py "    ") (N_of_ascii "*") 1
           (py "[ ]  call @bob ")
           eq_refl ltac:(repeat constructor) eq_refl (le_n 1) eq_refl
           ltac:(repeat constructor)).
Defined.

(** ** Mentions inside a text *)

Section MentionAnywhere.

Variable uni_alnum : char -> bool.

Local Abbreviation is_word := (is_word uni_alnum).
Local Abbreviation _extract_mentions := (_extract_mentions uni_alnum).

(** X13: an at sign followed by a name of word characters is a mention
    wherever it stands, whatever comes before it (a letter as well, as in
    an e-mail address), as long as no word character follows the name. *)
Theorem mention_found_anywhere (pre name post : pystr) :
  name <> [] ->
  forallb is_word name = true ->
  (forall c rest, post = c :: rest -> is_word c = false) ->
  In (len pre, len pre + 1 + len name)%Z
     (_extract_mentions (pre ++ AT :: name ++ post)).
Proof.
  intros Hne Hword Hpost. rewrite (extract_mentions_in uni_alnum (fun s => s)).
  exists (List.length pre), (List.length pre + 1 + List.length name).
  split; [reflexivity|]. split; [unfold len; lia|].
  assert (Hlen : 1 <= List.length name) by (destruct name; [contradiction|simpl; lia]).
  unfold run_at. repeat split.
  - rewrite nth_error_app2, Nat.sub_diag by lia. reflexivity.
  - lia.
  - rewrite length_app. cbn [List.length]. rewrite length_app. lia.
  - intros i Hi. rewrite nth_error_app2 by lia.
    destruct (i - List.length pre) as [|k] eqn:Ek; [lia|]. cbn [nth_error].
    rewrite nth_error_app1 by lia.
    destruct (nth_error name k) as [c|] eqn:Hc;
      [|apply nth_error_None in Hc; lia].
    exists c. split; [reflexivity|].
    rewrite forallb_forall in Hword. apply Hword. eapply nth_error_In; eassumption.
  - intros c Hc. rewrite nth_error_app2 in Hc by lia.
    replace (List.length pre + 1 + List.length name - List.length pre)
      with (S (List.length name)) in Hc by lia.
    cbn [nth_error] in Hc. rewrite nth_error_app2, Nat.sub_diag in Hc by lia.
    destruct post as [|d rest]; [discriminate|]. cbn [nth_error] in Hc.
    injection Hc as <-. now apply (Hpost d rest).
Qed.

End MentionAnywhere.

(** The host of an e-mail address is taken for a mention. *)
Lemma mention_found_anywhere_witness :
  In (3, 11)%Z (_extract_mentions no_alnum (py "bob@example.com")).
Proof.
  apply (@mention_found_anywhere no_alnum (py "bob") (py "example") (py ".com")).
  - discriminate.
  - reflexivity.
  - intros c rest E. injection E as <- _. reflexivity.
Defined.

(** ** Texts put together *)

Lemma splitlines_from_break (cur : pystr) (c : char) (s : pystr) :
  is_linebreak c = true -> c <> 0x0D%N ->
  splitlines_from cur (c :: s) = cur :: splitlines_from [] s.
Proof.
  intros Hc Hcr. cbn [splitlines_from]. rewrite Hc.
  now destruct (N.eqb_spec c 0x0D).
Qed.

Lemma splitlines_from_crlf (cur s : pystr) :
  splitlines_from cur (0x0D%N :: 0x0A%N :: s) = cur :: splitlines_from [] s.
Proof. reflexivity. Qed.

Lemma splitlines_from_cr (cur : pystr) (d : char) (s : pystr) :
  d <> 0x0A%N ->
  splitlines_from cur (0x0D%N :: d :: s) = cur :: splitlines_from [] (d :: s).
Proof.
  intros Hd. cbn [splitlines_from]. change (is_linebreak 0x0D%N) with true.
  cbv iota. change (0x0D =? 0x0D)%N with true. cbv iota.
  now destruct (N.eqb_spec d 0x0A).
Qed.

Lemma splitlines_from_cr_end (cur : pystr) :
  splitlines_from cur [0x0D%N] = [cur].
Proof. reflexivity. Qed.

Lemma splitlines_from_char (cur : pystr) (c : char) (s : pystr) :
  is_linebreak c = false ->
  splitlines_from cur (c :: s) = splitlines_from (cur ++ [c]) s.
Proof. intros Hc. cbn [splitlines_from]. now rewrite Hc. Qed.

Lemma flat_map_last_line {X} (g : pystr -> list X) (cur : pystr) :
  g [] = [] -> flat_map g (splitlines_from cur []) = g cur.
Proof.
  intros Hg. destruct cur; cbn [splitlines_from flat_map];
    [now rewrite Hg|apply app_nil_r].
Qed.

Lemma flat_map_splitlines_from {X} (g : pystr -> list X) (b : pystr) :
  g [] = [] ->
  forall n a cur,
    List.length a <= n ->
    flat_map g (splitlines_from cur (a ++ LF ++ b)) =
    flat_map g (splitlines_from cur a) ++ flat_map g (splitlines b).
Proof.
  intros Hg.
  assert (Hbase : forall cur,
             flat_map g (splitlines_from cur (LF ++ b)) =
             flat_map g (splitlines_from cur []) ++ flat_map g (splitlines b)).
  { intros cur. change (LF ++ b) with (0x0A%N :: b).
    rewrite splitlines_from_break by (reflexivity || discriminate).
    now rewrite flat_map_last_line by exact Hg. }
  induction n as [|n IH]; intros a cur Hn.
  - destruct a; [apply Hbase|simpl in Hn; lia].
  - destruct a as [|c a]; [apply Hbase|]. simpl in Hn.
    cbn [app].
    destruct (is_linebreak c) eqn:Hc.
    + destruct (N.eqb_spec c 0x0D) as [->|Hcr].
      * destruct a as [|d a'].
        -- change ([] ++ LF ++ b) with (0x0A%N :: b).
           rewrite splitlines_from_crlf, splitlines_from_cr_end.
           cbn [flat_map]. now rewrite app_nil_r.
        -- cbn [app]. destruct (N.eqb_spec d 0x0A) as [->|Hd].
           ++ rewrite !splitlines_from_crlf. cbn [flat_map].
              rewrite <- app_assoc. f_equal. apply IH. simpl in Hn. lia.
           ++ rewrite !splitlines_from_cr by exact Hd. cbn [flat_map].
              rewrite <- app_assoc. f_equal. apply (IH (d :: a')). lia.
      * rewrite !splitlines_from_break by assumption. cbn [flat_map].
        rewrite <- app_assoc. f_equal. apply IH. lia.
    + rewrite !splitlines_from_char by exact Hc. apply IH. lia.
Qed.

Section ConcatFacts.

Variable uni_alnum : char -> bool.
Variable uni_lower : pystr -> pystr.

Local Abbreviation parse_markdown := (parse_markdown uni_alnum uni_lower).
Local Abbreviation paragraph_of_line := (paragraph_of_line uni_alnum uni_lower).

(** X14: parsing goes line by line: the paragraphs of two texts joined by
    a line feed are the paragraphs of the first text, then those of the
    second, however the first text ends and the second starts. *)
Theorem parse_markdown_joined (first second : pystr) :
  exists paragraphs1 paragraphs2,
    parse_markdown first = Ok paragraphs1
    /\ parse_markdown second = Ok paragraphs2
    /\ parse_markdown (first ++ LF ++ second) = Ok (paragraphs1 ++ paragraphs2).
Proof.
  exists (flat_map paragraph_of_line (splitlines first)),
         (flat_map paragraph_of_line (splitlines second)).
  rewrite !parse_markdown_ok. repeat split. f_equal.
  unfold splitlines at 1.
  apply (@flat_map_splitlines_from _ paragraph_of_line second eq_refl
           (List.length first)).
  lia.
Qed.

End ConcatFacts.

(** ** Footer lines *)

Ltac decide_comparisons :=
  repeat match goal with
         | |- context [N.leb ?a ?b] =>
             first [rewrite (proj2 (N.leb_le a b)) by lia
                   |rewrite (proj2 (N.leb_gt a b)) by lia]
         | |- context [N.eqb ?a ?b] =>
             rewrite (proj2 (N.eqb_neq a b)) by lia
         end.

(** A capital letter is no space, no line boundary, no [#] and no marker. *)
Lemma capital_is_plain (c : char) :
  (0x41 <= c <= 0x5A)%N ->
  is_space c = false /\ is_linebreak c = false
  /\ is_char "#" c = false /\ dash_or_star c = false /\ is_ascii c = true.
Proof.
  intros Hc.
  unfold is_space, is_linebreak, dash_or_star, is_char, is_ascii.
  change (N_of_ascii "#") with 35%N. change (N_of_ascii "-") with 45%N.
  change (N_of_ascii "*") with 42%N.
  repeat split; decide_comparisons; try reflexivity.
  apply N.ltb_lt. lia.
Qed.

(** [ascii_lower] changes capital letters only. *)
Lemma ascii_lower_keeps (f : char -> bool) (c : char) :
  (forall d, (0x41 <= d <= 0x5A)%N -> f d = false) ->
  f (ascii_lower c) = false -> f c = false.
Proof.
  intros Hcap. unfold ascii_lower.
  destruct ((0x41 <=? c) && (c <=? 0x5A))%N eqn:E; [|tauto].
  intros _. apply Hcap. apply andb_true_iff in E. destruct E as [E1 E2].
  apply N.leb_le in E1, E2. lia.
Qed.

Lemma ascii_lower_ascii (c : char) : is_ascii (ascii_lower c) = true -> is_ascii c = true.
Proof.
  unfold ascii_lower.
  destruct ((0x41 <=? c) && (c <=? 0x5A))%N eqn:E; [|tauto].
  intros _. apply capital_is_plain. apply andb_true_iff in E. destruct E as [E1 E2].
  apply N.leb_le in E1, E2. lia.
Qed.

Lemma lower_of_ascii (uni_lower : pystr -> pystr) (s : pystr) :
  forallb is_ascii s = true -> lower uni_lower s = map ascii_lower s.
Proof. intros H. unfold lower. now rewrite H. Qed.

(** A prefix that is lowered to [target] is as plain as [target] is. *)
Lemma lowered_prefix (prefix target : pystr) :
  map ascii_lower prefix = target ->
  forallb is_ascii target = true ->
  forallb (fun c => negb (is_linebreak c)) target = true ->
  forallb is_ascii prefix = true
  /\ Forall (fun c => is_linebreak c = false) prefix.
Proof.
  intros <- Hascii Hline. split.
  - apply forallb_forall. intros c Hc. apply ascii_lower_ascii.
    rewrite forallb_forall in Hascii. apply Hascii. now apply in_map.
  - apply Forall_forall. intros c Hc.
    apply (ascii_lower_keeps is_linebreak);
      [intros d Hd; now apply capital_is_plain|].
    rewrite forallb_forall in Hline.
    apply negb_true_iff. apply Hline. now apply in_map.
Qed.

Lemma lowered_first (prefix : pystr) (t0 : char) (target : pystr) :
  map ascii_lower prefix = t0 :: target ->
  is_space t0 = false -> is_char "#" t0 = false -> dash_or_star t0 = false ->
  exists c0 rest,
    prefix = c0 :: rest
    /\ is_space c0 = false /\ is_char "#" c0 = false /\ dash_or_star c0 = false.
Proof.
  intros E Hs Hh Hm. destruct prefix as [|c0 rest]; [discriminate|].
  cbn [map] in E. injection E as E _. subst t0.
  exists c0, rest. repeat split.
  - apply (ascii_lower_keeps is_space); [intros d Hd; now apply capital_is_plain|exact Hs].
  - apply (ascii_lower_keeps (is_char "#"));
      [intros d Hd; now apply capital_is_plain|exact Hh].
  - apply (ascii_lower_keeps dash_or_star);
      [intros d Hd; now apply capital_is_plain|exact Hm].
Qed.

Lemma lowered_last (prefix : pystr) (t : char) (target : pystr) :
  map ascii_lower prefix = target ->
  rev target = t :: tl (rev target) ->
  is_space t = false ->
  rstrip prefix = prefix.
Proof.
  intros E Hrev Hs. unfold rstrip.
  assert (Hmap : map ascii_lower (rev prefix) = t :: tl (rev target)).
  { now rewrite map_rev, E. }
  destruct (rev prefix) as [|c q] eqn:Hq; [discriminate|].
  cbn [map] in Hmap. injection Hmap as Hc _. subst t.
  cbn [drop_while].
  rewrite (@ascii_lower_keeps is_space c
             (fun d Hd => proj1 (@capital_is_plain d Hd)) Hs).
  rewrite <- Hq. apply rev_involutive.
Qed.

Section FooterFacts.

Variable uni_alnum : char -> bool.
Variable uni_lower : pystr -> pystr.

Local Abbreviation parse_line := (parse_line uni_alnum uni_lower).
Local Abbreviation parse_markdown := (parse_markdown uni_alnum uni_lower).
Local Abbreviation _extract_mentions := (_extract_mentions uni_alnum).

(** A line that starts, in any case of its letters, with a word that is
    plain in the sense of the lemmas above, is parsed as a plain
    paragraph. *)
Lemma lowered_line_parsed (prefix rest target : pystr) (t0 t : char) (target' : pystr) :
  map ascii_lower prefix = target ->
  target = t0 :: target' ->
  is_space t0 = false -> is_char "#" t0 = false -> dash_or_star t0 = false ->
  rev target = t :: tl (rev target) -> is_space t = false ->
  forallb is_ascii target = true ->
  forallb (fun c => negb (is_linebreak c)) target = true ->
  forallb is_ascii rest = true ->
  Forall (fun c => is_linebreak c = false) rest ->
  parse_markdown (prefix ++ rest) =
  Ok [{| text := prefix ++ rstrip rest;
         named_style := NORMAL_TEXT;
         bullet := false; checkbox := false; indent_level := 0;
         is_footer :=
           startswith (target ++ map ascii_lower (rstrip rest)) (py "meeting recorded")
           || startswith (target ++ map ascii_lower (rstrip rest)) (py "duration");
         mention_spans := _extract_mentions (prefix ++ rstrip rest) |}].
Proof.
  intros Hmap Htarget Hs0 Hh0 Hm0 Hrev Hst Hascii Hline Hrest Hrestline.
  destruct (@lowered_prefix prefix target Hmap Hascii Hline) as [Hpa Hpl].
  assert (Hmap' : map ascii_lower prefix = t0 :: target') by congruence.
  destruct (@lowered_first prefix t0 target' Hmap' Hs0 Hh0 Hm0)
    as (c0 & p' & Hp & Hs & Hh & Hm).
  pose proof (@lowered_last prefix t target Hmap Hrev Hst) as Hrs.
  rewrite parse_markdown_one_line;
    [|subst prefix; discriminate|apply Forall_app; now split].
  unfold parse_line. rewrite (@rstrip_app_visible prefix rest Hrs).
  assert (Hrule : str_eqb (strip (prefix ++ rstrip rest)) (py "---") = false).
  { subst prefix. unfold strip, lstrip. cbn [app drop_while]. rewrite Hs.
    rewrite rstrip_cons_visible by exact Hs.
    cbn [str_eqb py map list_ascii_of_string].
    unfold dash_or_star, is_char in Hm. apply orb_false_iff in Hm.
    destruct Hm as [Hm _]. now rewrite Hm. }
  rewrite Hrule.
  assert (Hlow : lower uni_lower (prefix ++ rstrip rest) =
                 target ++ map ascii_lower (rstrip rest)).
  { rewrite lower_of_ascii, map_app, Hmap; [reflexivity|].
    rewrite forallb_app, Hpa. cbn [andb].
    apply forallb_forall. intros c Hc. apply rstrip_incl in Hc.
    rewrite forallb_forall in Hrest. now apply Hrest. }
  rewrite Hlow. subst prefix. cbn [app].
  rewrite (@heading_needs_hash c0 _ Hh), (@bullet_needs_marker c0 _ Hs Hm).
  reflexivity.
Qed.

(** X15: a line of ASCII characters that starts with [meeting recorded]
    or with [duration], in any case of the letters, is parsed as one plain
    paragraph that is a footer; its text is the line without the spaces
    at its end. *)
Theorem footer_line_parsed (prefix rest : pystr) :
  map ascii_lower prefix = py "meeting recorded"
  \/ map ascii_lower prefix = py "duration" ->
  forallb is_ascii rest = true ->
  Forall (fun c => is_linebreak c = false) rest ->
  parse_markdown (prefix ++ rest) =
  Ok [{| text := prefix ++ rstrip rest;
         named_style := NORMAL_TEXT;
         bullet := false; checkbox := false; indent_level := 0;
         is_footer := true;
         mention_spans := _extract_mentions (prefix ++ rstrip rest) |}].
Proof.
  intros [Hmap|Hmap] Hrest Hline.
  - rewrite (@lowered_line_parsed prefix rest (py "meeting recorded")
               (N_of_ascii "m") (N_of_ascii "d") (py "eeting recorded")
               Hmap eq_refl eq_refl eq_refl eq_refl eq_refl eq_refl eq_refl eq_refl
               Hrest Hline).
    now rewrite startswith_app.
  - rewrite (@lowered_line_parsed prefix rest (py "duration")
               (N_of_ascii "d") (N_of_ascii "n") (py "uration")
               Hmap eq_refl eq_refl eq_refl eq_refl eq_refl eq_refl eq_refl eq_refl
               Hrest Hline).
    rewrite (startswith_app (py "duration")). now rewrite orb_true_r.
Qed.

End FooterFacts.

(** Capital letters, and spaces at the end of the line. *)
Lemma footer_line_parsed_witness :
  parse_markdown no_alnum same_lower (py "DURATION: 45 min  ") =
  Ok [{| text := py "DURATION: 45 min";
         named_style := NORMAL_TEXT;
         bullet := false; checkbox := false; indent_level := 0;
         is_footer := true;
         mention_spans := [] |}].
Proof.
  apply (@footer_line_parsed no_alnum same_lower (py "DURATION") (py ": 45 min  ")
           (or_intror eq_refl) eq_refl ltac:(repeat constructor)).
Defined.

(** ** Further examples *)

(** A heading and a bullet with a mention: the bullet takes [[7, 16)], and
    the update of its mention covers the name in the whole text. *)
Lemma text_style_ranges_cover_witness :
  slice (inserted_text (build_requests [sample_heading; sample_mention])) 6 14 =
  py "ask @eve"
  /\ In (updateTextStyle {| startIndex := 11; endIndex := 15 |}
           mention_style (py "bold,foregroundColor"))
        (build_requests [sample_heading; sample_mention])
  /\ slice (inserted_text (build_requests [sample_heading; sample_mention])) 10 14 =
     py "@eve".
Proof.
  pose proof (@text_style_ranges_cover [sample_heading; sample_mention] 1
                sample_mention 7 16 eq_refl eq_refl) as H.
  cbv zeta in H. destruct H as [Hfoot Hspan].
  split; [exact Hfoot|].
  apply (Hspan 4%Z 8%Z); [now left|lia|lia|].
  vm_compute. discriminate.
Defined.
